(** * The authentication gate of the API scaffold

    A shallow embedding of [createJWT] and [protect] (the code of
    [src/modules/auth.ts] as given in README.MD, "Creating a JWT"), of the
    mounting [app.use('/api', protect, router)] of [src/server.ts] and of the
    start-up script [src/index.ts].

    JavaScript objects are finite maps from property names to values, the
    request, the response and the console are an explicit state threaded
    through a small state monad, and [next] is the continuation Express hands
    to a middleware.  The [jsonwebtoken] package is not part of the
    repository: its two entry points are the operations of the class
    [JwtPrimitive], and what the development needs to know about them is
    stated as named laws. *)

From stdpp Require Import gmap strings list fin_maps countable.
From Stdlib Require Import ZArith Ascii String.

Open Scope Z_scope.
Open Scope string_scope.

(** ** JavaScript data *)

(** The values an identity field holds: a string (a uuid, a user name) or a
    number (an auto-incremented id, a timestamp). *)
Inductive value : Type :=
  | VStr (s : string)
  | VNum (n : Z).

#[global] Instance value_eq_dec : EqDecision value.
Proof. solve_decision. Defined.

Definition value_to_sum (v : value) : string + Z :=
  match v with VStr s => inl s | VNum n => inr n end.

Definition value_of_sum (x : string + Z) : value :=
  match x with inl s => VStr s | inr n => VNum n end.

#[global] Instance value_countable : Countable value.
Proof.
  apply (inj_countable' value_to_sum value_of_sum).
  intros []; reflexivity.
Defined.

(** A plain object: property name to value; an absent key reads [undefined]. *)
Abbreviation object := (gmap string value).

(** A thrown [Error]: its [name] and its [message]. *)
Record js_error : Type := JsError { err_name : string; err_message : string }.

#[global] Instance js_error_eq_dec : EqDecision js_error.
Proof. solve_decision. Defined.

(** [!s] on a value that is a string or [undefined]: the branch taken when the
    value is falsy passes through [None], the other one gets the string. *)
Definition truthy (s : option string) : option string :=
  match s with
  | Some "" => None
  | Some s => Some s
  | None => None
  end.

(** [s.split(sep)] for a one-character separator: every occurrence of [sep]
    ends a part, empty parts are kept, and the result is never empty. *)
Fixpoint split (sep : ascii) (s : string) : list string :=
  match s with
  | EmptyString => [EmptyString]
  | String c s' =>
      if Ascii.eqb c sep then EmptyString :: split sep s'
      else match split sep s' with
           | [] => [String c EmptyString]
           | part :: parts => String c part :: parts
           end
  end.

(** [const [, token] = parts]: the element of index 1, [undefined] when the
    array is shorter. *)
Definition second (parts : list string) : option string := parts !! 1%nat.

(** ** The request, the response and the console *)

Record request : Type := Request {
  headers_authorization : option string;   (* req.headers.authorization *)
  user : option object                     (* req.user *)
}.

Record response : Type := Response {
  statusCode : Z;                          (* res.statusCode *)
  sent : list string                       (* the bodies passed to res.send *)
}.

Inductive log_entry : Type :=
  | LogString (s : string)                 (* console.log of a string *)
  | LogObject (o : object)                 (* console.log of an object *)
  | LogError (e : js_error).               (* console.error of an exception *)

Record world : Type := World {
  req : request;
  res : response;
  console : list log_entry
}.

#[global] Instance log_entry_eq_dec : EqDecision log_entry.
Proof. solve_decision. Defined.
#[global] Instance request_eq_dec : EqDecision request.
Proof. solve_decision. Defined.
#[global] Instance response_eq_dec : EqDecision response.
Proof. solve_decision. Defined.
#[global] Instance world_eq_dec : EqDecision world.
Proof. solve_decision. Defined.

(** ** A state monad over the world *)

Definition M (A : Type) : Type := world → A * world.

#[global] Instance M_ret : MRet M := λ A a w, (a, w).
#[global] Instance M_bind : MBind M :=
  λ A B f m w, let '(a, w') := m w in f a w'.

(** Runs an action for its effect. *)
Definition exec {A} (m : M A) (w : world) : world := (m w).2.

Definition get_authorization : M (option string) :=
  λ w, (headers_authorization (req w), w).

Definition set_user (payload : object) : M unit :=
  λ w, (tt, World (Request (headers_authorization (req w)) (Some payload))
                  (res w) (console w)).

Definition res_status (code : Z) : M unit :=
  λ w, (tt, World (req w) (Response code (sent (res w))) (console w)).

Definition res_send (body : string) : M unit :=
  λ w, (tt, World (req w) (Response (statusCode (res w)) (sent (res w) ++ [body]))
                  (console w)).

Definition console_log (entry : log_entry) : M unit :=
  λ w, (tt, World (req w) (res w) (console w ++ [entry])).

(** ** The signing primitive *)

(** [jwt.sign(payload, secretOrPrivateKey)] and
    [jwt.verify(token, secretOrPublicKey)] of the [jsonwebtoken] package.
    Both read the clock (the issued-at stamp, the expiry check), which is the
    last argument, in seconds; both either return or throw. *)
Class JwtPrimitive : Type := {
  jwt_sign : object → option string → Z → js_error + string;
  jwt_verify : string → option string → Z → js_error + object
}.

Section Auth.

Context `{JwtPrimitive}.

(** The process environment [process.env], and the clock. *)
Implicit Types (env : gmap string string) (now : Z).

(** The object literal [{ id: user.id, username: user.username }].  A field
    that is [undefined] is left out, as the token's JSON body leaves it out;
    every other property of [user] is ignored. *)
Definition identity_payload (usr : object) : object :=
  let with_id :=
    match usr !! "id" with Some v => <["id" := v]> ∅ | None => ∅ end in
  match usr !! "username" with
  | Some v => <["username" := v]> with_id
  | None => with_id
  end.

(** [createJWT(user)]: signs the literal with [process.env.JWT_SECRET] and
    returns the token; an exception of [jwt.sign] propagates to the
    caller. *)
Definition createJWT env now (usr : object) : js_error + string :=
  let token := jwt_sign (identity_payload usr) (env !! "JWT_SECRET") now in
  token.

(** A call [createJWT(user)] as a step of a handler: the body has no
    statement but the call of [jwt.sign] and the [return], so the step
    yields the result and leaves the world alone. *)
Definition createJWT_call env now (usr : object) : M (js_error + string) :=
  mret (createJWT env now usr).

Definition not_authorized : M unit :=
  res_status 401;; res_send "Not authorized".

(** [protect(req, res, next)]. *)
Definition protect env now (next : M unit) : M unit :=
  bearer ← get_authorization;
  match truthy bearer with
  | None => not_authorized
  | Some bearer =>
      match truthy (second (split " " bearer)) with
      | None => console_log (LogString "here");; not_authorized
      | Some token =>
          match jwt_verify token (env !! "JWT_SECRET") now with
          | inr payload =>
              set_user payload;; console_log (LogObject payload);; next
          | inl e =>
              console_log (LogError e);; not_authorized
          end
      end
  end.

(** [app.use('/api', protect, router)]: for a request under [/api] the gate
    runs with the router as its continuation.  Express catches what a
    handler throws, so the continuation returns normally to the gate. *)
Definition api env now (router : M unit) : M unit :=
  protect env now router.

(** The gate in front of a router whose handlers do nothing, as the
    placeholder handlers of this repository. *)
Definition gate env now (w : world) : world :=
  exec (protect env now (mret tt)) w.

(** *** Why a request is turned away *)

Inductive cause : Type :=
  | MissingHeader
  | MalformedCredential
  | VerificationFailed (e : js_error).

(** The cause a request fails for, read off the request alone; [None] when
    its token verifies. *)
Definition failure env now (w : world) : option cause :=
  match truthy (headers_authorization (req w)) with
  | None => Some MissingHeader
  | Some bearer =>
      match truthy (second (split " " bearer)) with
      | None => Some MalformedCredential
      | Some token =>
          match jwt_verify token (env !! "JWT_SECRET") now with
          | inl e => Some (VerificationFailed e)
          | inr _ => None
          end
      end
  end.

(** *** What the development assumes of the signing primitive *)

(** A payload that sets none of the registered claims itself. *)
Definition unregistered (p : object) : Prop :=
  p !! "iat" = None ∧ p !! "exp" = None ∧ p !! "nbf" = None.

(** With a secret at hand, signing such a payload returns a token. *)
Definition SignsWithSecret : Prop :=
  ∀ (p : object) (s : string) now,
    s ≠ "" → unregistered p → ∃ tok, jwt_sign p (Some s) now = inr tok.

(** Without one ([undefined], or the empty string) signing throws. *)
Definition SignNeedsSecret : Prop :=
  ∀ (p : object) key now,
    truthy key = None → ∃ e, jwt_sign p key now = inl e.

(** A token is never the empty string. *)
Definition TokensNonEmpty : Prop :=
  ∀ (p : object) key iat tok, jwt_sign p key iat = inr tok → tok ≠ "".

(** The token encodes the payload plus the issued-at stamp, and verifying it
    with the key that signed it decodes exactly that; a token without an
    expiry verifies at any later or earlier time. *)
Definition IssuedAtRoundTrip : Prop :=
  ∀ (p : object) key iat tok now,
    unregistered p →
    jwt_sign p key iat = inr tok →
    jwt_verify tok key now = inr (<["iat" := VNum iat]> p).

(** "Verifiable only with the same secret key". *)
Definition VerifiableOnlyWithSigningKey : Prop :=
  ∀ (p : object) (s : string) iat tok key now,
    jwt_sign p (Some s) iat = inr tok →
    key ≠ Some s →
    ∃ e, jwt_verify tok key now = inl e.

End Auth.

(** [tok'] is [tok] with one character replaced by another one. *)
Definition mutation (tok tok' : string) : Prop :=
  ∃ pre c c' post,
    c ≠ c' ∧ tok = pre +:+ String c post ∧ tok' = pre +:+ String c' post.

(** A token corrupted in one character no longer verifies. *)
Definition TamperEvident `{JwtPrimitive} : Prop :=
  ∀ (p : object) key iat tok tok' now,
    jwt_sign p key iat = inr tok →
    mutation tok tok' →
    ∃ e, jwt_verify tok' key now = inl e.

(** ** The two ways the gate ends *)

(** The world handed to [next]: the claim attached and logged, nothing else
    touched. *)
Definition forwarded (payload : object) (w : world) : world :=
  World (Request (headers_authorization (req w)) (Some payload))
        (res w)
        (console w ++ [LogObject payload]).

(** The world after a rejection that logged [logs]. *)
Definition rejected (logs : list log_entry) (w : world) : world :=
  World (req w)
        (Response 401 (sent (res w) ++ ["Not authorized"]))
        (console w ++ logs).

(** The request of [w] with another Authorization header. *)
Definition with_authorization (h : option string) (w : world) : world :=
  World (Request h (user (req w))) (res w) (console w).

(** A continuation that leaves a mark in the console each time it runs. *)
Definition spy : M unit := console_log (LogString "next()").

Definition spy_calls (w : world) : nat :=
  List.length (filter (λ entry, entry = LogString "next()") (console w)).

(** The gate forwards [w] with the claim [payload]: whatever [next] is, the
    run of the gate is the run of [next] on the forwarded world. *)
Definition forwards `{JwtPrimitive} (env : gmap string string) (now : Z)
    (w : world) (payload : object) : Prop :=
  ∀ next, protect env now next w = next (forwarded payload w).

(** The gate rejects [w], logging [logs]: whatever [next] is, it does not
    run and the world is the rejected one. *)
Definition rejects `{JwtPrimitive} (env : gmap string string) (now : Z)
    (w : world) (logs : list log_entry) : Prop :=
  ∀ next, protect env now next w = (tt, rejected logs w).

(** No space character occurs in [s]. *)
Fixpoint space_free (s : string) : bool :=
  match s with
  | EmptyString => true
  | String c s' => negb (Ascii.eqb c " ") && space_free s'
  end.

(** A token has no space in it. *)
Definition TokensSpaceFree `{JwtPrimitive} : Prop :=
  ∀ (p : object) key iat tok,
    jwt_sign p key iat = inr tok → space_free tok = true.

(** A token cut short no longer verifies: no proper prefix of a token
    verifies under the key that signed the token. *)
Definition TruncationEvident `{JwtPrimitive} : Prop :=
  ∀ (p : object) key iat tok pre c post now,
    jwt_sign p key iat = inr tok →
    tok = pre +:+ String c post →
    ∃ e, jwt_verify pre key now = inl e.

(** The header [h] carries the text [tok] as its credential: a first word
    without a space, one space, then [tok], up to the end of the header or
    followed by a space and anything. *)
Definition carries (h tok : string) : Prop :=
  ∃ scheme,
    space_free scheme = true
    ∧ (h = scheme +:+ " " +:+ tok
       ∨ ∃ rest, h = scheme +:+ " " +:+ tok +:+ " " +:+ rest).

(** ** Start-up: [src/index.ts] *)

Inductive process : Type :=
  | Exited (e : js_error)
  | Listening (port : Z) (env : gmap string string) (stdout : list log_entry).

(** [dotenv.config()]: the variables of the [.env] file are added to
    [process.env]; a variable that is already set keeps its value. *)
Definition dotenv_config (dotenv_file env : gmap string string)
  : gmap string string :=
  env ∪ dotenv_file.

(** The script: load the environment, then listen on port 3001. *)
Definition index_ts (dotenv_file env : gmap string string) : process :=
  let env := dotenv_config dotenv_file env in
  let port := 3001 in
  Listening port env
    [LogString ("hello on port http://localhost:" +:+ "3001")].

Definition serves_traffic (p : process) : bool :=
  match p with Listening _ _ _ => true | Exited _ => false end.

(** ** The words of the specification, for comparison *)

(** "Split on whitespace": every whitespace character ends a part. *)
Fixpoint spec_split_whitespace (s : string) : list string :=
  match s with
  | EmptyString => [EmptyString]
  | String c s' =>
      if Ascii.is_space c then EmptyString :: spec_split_whitespace s'
      else match spec_split_whitespace s' with
           | [] => [String c EmptyString]
           | part :: parts => String c part :: parts
           end
  end.

(** "The second whitespace-separated part" of a header. *)
Definition spec_token (h : string) : option string :=
  second (spec_split_whitespace h).

(** ** The rest of the application *)

(** [customLogger(message)] of [src/server.ts]: one line on the console,
    then the next stage. *)
Definition customLogger (message : string) (next : M unit) : M unit :=
  console_log (LogString ("Hello from " +:+ message));; next.

(** The number of space characters in a string. *)
Fixpoint count_spaces (s : string) : nat :=
  match s with
  | EmptyString => 0
  | String c s' =>
      if Ascii.eqb c " " then S (count_spaces s') else count_spaces s'
  end.

(** A token is clean when it is not empty and has no space in it. *)
Definition clean (tok : string) : bool :=
  negb (String.eqb tok "") && space_free tok.

(** The verbs the router registers handlers for. *)
Inductive verb : Type := GET | POST | PUT | DELETE.

(** A registered route: [router.verb(path, handler)]. *)
Record route : Type := Route {
  route_verb : verb;
  route_path : string;
  route_handler : M unit
}.

(** What the first program of README.MD does with the response object:
    [res.writeHead], [res.write] and [res.end], in the order of the calls. *)
Inductive outgoing : Type :=
  | WriteHead (status : Z) (headers : list (string * string))
  | Write (chunk : string)
  | End_ (chunk : option string).

(** The two fields of the incoming message that program reads. *)
Record incoming : Type := Incoming { url : string; method : string }.

Section Handlers.

(** [JSON.stringify], a built-in, on the object literals the handlers
    send. *)
Variable JSON_stringify : object → string.

(** [res.json(body)]: the body goes out as its JSON text. *)
Definition res_json (body : object) : M unit :=
  res_send (JSON_stringify body).

(** [(req, res) => { res.json({ message: "product" }) }]. *)
Definition product_index : M unit :=
  res_json {[ "message" := VStr "product" ]}.

(** [(req, res) => {}]. *)
Definition placeholder : M unit := mret tt.

(** The routes of [src/router.ts], in the order they are registered. *)
Definition router : list route :=
  [ Route GET "/product" product_index;
    Route GET "/product/:id" placeholder;
    Route POST "/product" placeholder;
    Route PUT "/product/:id" placeholder;
    Route DELETE "/product/:id" placeholder;
    Route GET "/update" placeholder;
    Route GET "/update/:id" placeholder;
    Route POST "/update" placeholder;
    Route PUT "/update/:id" placeholder;
    Route DELETE "/update/:id" placeholder;
    Route GET "/updatepoint" placeholder;
    Route GET "/updatepoint/:id" placeholder;
    Route POST "/updatepoint" placeholder;
    Route PUT "/updatepoint/:id" placeholder;
    Route DELETE "/updatepoint/:id" placeholder ].

(** The request listener of the first program of README.MD ("Playing on
    hard mode"), handed to [http.createServer]. *)
Definition server (req : incoming) : list outgoing :=
  if String.eqb (url req) "/" && String.eqb (method req) "GET" then
    [ WriteHead 200 [("Content-Type", "application/json")];
      Write (JSON_stringify {[ "message" := VStr "hello" ]});
      End_ None ]
  else
    [ WriteHead 404 [("Content-Type", "application/json")];
      End_ (Some (JSON_stringify {[ "message" := VStr "nope" ]})) ].

End Handlers.

(** A response as Node wants it: the head first and once, then chunks, then
    the end, once and last. *)
Fixpoint chunks_then_end (l : list outgoing) : bool :=
  match l with
  | [End_ _] => true
  | Write _ :: l' => chunks_then_end l'
  | _ => false
  end.

Definition complete_response (l : list outgoing) : bool :=
  match l with
  | WriteHead _ _ :: l' => chunks_then_end l'
  | _ => false
  end.

(** The status and the body text of a response. *)
Definition status_of (l : list outgoing) : option Z :=
  match l with WriteHead status _ :: _ => Some status | _ => None end.

Fixpoint body_of (l : list outgoing) : string :=
  match l with
  | [] => ""
  | Write chunk :: l' => chunk +:+ body_of l'
  | End_ (Some chunk) :: l' => chunk +:+ body_of l'
  | _ :: l' => body_of l'
  end.

Definition content_type_of (l : list outgoing) : option string :=
  match l with
  | WriteHead _ headers :: _ =>
      snd <$> List.find (λ kv, String.eqb (fst kv) "Content-Type") headers
  | _ => None
  end.

(** ** A reference signing primitive *)

(** The binary numeral of a positive number, written as text, and back. *)
Fixpoint pos_bits (p : positive) : string :=
  match p with
  | xH => ""
  | xO p => String "0" (pos_bits p)
  | xI p => String "1" (pos_bits p)
  end.

Fixpoint bits_pos (s : string) : option positive :=
  match s with
  | EmptyString => Some xH
  | String c s =>
      if Ascii.eqb c "0" then xO <$> bits_pos s
      else if Ascii.eqb c "1" then xI <$> bits_pos s
      else None
  end.

(** Every character is a binary digit. *)
Fixpoint bit_string (s : string) : bool :=
  match s with
  | EmptyString => true
  | String c s' => (Ascii.eqb c "0" || Ascii.eqb c "1") && bit_string s'
  end.

(** The first [n] characters of a string. *)
Fixpoint str_take (n : nat) (s : string) : string :=
  match n, s with
  | S n, String c s => String c (str_take n s)
  | _, _ => ""
  end.

(** The seal of a body under a key: the letter J and the numeral of the
    code of the pair. *)
Definition seal (body : object) (k : string) : string :=
  String "J" (pos_bits (encode (body, k))).

Definition unseal (half : string) : option (object * string) :=
  match half with
  | String c bits => if Ascii.eqb c "J" then bits_pos bits ≫= decode else None
  | EmptyString => None
  end.

(** Modelled from the spec: the signing primitive, which the repository takes
    from the [jsonwebtoken] package.  The token is "an opaque, signed string
    encoding the identity claim plus implicit standard claims (issued-at)
    added by the signing primitive", "verifiable only with the same secret
    key"; signing "fails [...] if the signing secret is unavailable at call
    time".  Here the token is the seal written twice, an ideal tag: it
    determines the body and the key. *)
Definition ref_sign (payload : object) (key : option string) (now : Z)
  : js_error + string :=
  match truthy key with
  | None => inl (JsError "Error" "secretOrPrivateKey must have a value")
  | Some k =>
      let body :=
        match payload !! "iat" with
        | Some _ => payload
        | None => <["iat" := VNum now]> payload
        end in
      inr (seal body k +:+ seal body k)
  end.

(** The embedded expiry, when there is one, against the clock. *)
Definition check_expiry (body : object) (now : Z) : js_error + object :=
  match body !! "exp" with
  | None => inr body
  | Some (VNum e) =>
      if Z.leb e now then inl (JsError "TokenExpiredError" "jwt expired")
      else inr body
  | Some (VStr _) => inl (JsError "JsonWebTokenError" "invalid exp value")
  end.

(** Modelled from the spec: verification "against the process-wide secret
    key, checking signature validity and any embedded expiry", "a pure
    function of (token, secret, current time)"; it fails on a "bad
    signature, expired, malformed payload". *)
Definition ref_verify (tok : string) (key : option string) (now : Z)
  : js_error + object :=
  match truthy key with
  | None =>
      inl (JsError "JsonWebTokenError" "secret or public key must be provided")
  | Some k =>
      let half := str_take (Nat.div2 (String.length tok)) tok in
      if decide (tok = half +:+ half) then
        match unseal half with
        | Some (body, k') =>
            if decide (k' = k) then check_expiry body now
            else inl (JsError "JsonWebTokenError" "invalid signature")
        | None => inl (JsError "JsonWebTokenError" "jwt malformed")
        end
      else inl (JsError "JsonWebTokenError" "jwt malformed")
  end.

Definition reference_jwt : JwtPrimitive :=
  {| jwt_sign := ref_sign; jwt_verify := ref_verify |}.

(** ** Sample data *)

Section Samples.

(** The samples are requests to a server that runs on the reference
    primitive. *)
#[local] Existing Instance reference_jwt.

Definition sample_env : gmap string string := {[ "JWT_SECRET" := "s3cr3t" ]}.

(** An environment configured with another secret. *)
Definition other_env : gmap string string := {[ "JWT_SECRET" := "0ther" ]}.

Definition sample_user : object :=
  {[ "id" := VStr "u-1"; "username" := VStr "ada" ]}.

Definition sample_world (h : option string) : world :=
  World (Request h None) (Response 200 []) [].

(** The token [createJWT] issues for the sample user at second
    1700000000. *)
Definition sample_token : string :=
  match createJWT sample_env 1700000000 sample_user with
  | inr tok => tok
  | inl _ => ""
  end.

Definition str_tail (s : string) : string :=
  match s with String _ rest => rest | EmptyString => "" end.

(** The same token with its first character, a J, replaced by a K. *)
Definition tampered_token : string := String "K" (str_tail sample_token).

(** The same token with its second character, a digit, replaced by a
    space. *)
Definition spaced_token : string :=
  String "J" (String " " (str_tail (str_tail sample_token))).

(** The token issued for the same user one second later. *)
Definition later_token : string :=
  match createJWT sample_env 1700000001 sample_user with
  | inr tok => tok
  | inl _ => ""
  end.

(** Headers carrying the sample token: after "Bearer" and a space, after
    "Basic" and a space, and after "Bearer" and a tab. *)
Definition bearer_header : string := "Bearer " +:+ sample_token.
Definition basic_header : string := "Basic " +:+ sample_token.
Definition tab_header : string := "Bearer" +:+ String "009" sample_token.

(** A token that carries an expiry at second 1700003600. *)
Definition expiring_token : string :=
  match jwt_sign (<["exp" := VNum 1700003600]> sample_user)
                 (Some "s3cr3t") 1700000000 with
  | inr tok => tok
  | inl _ => ""
  end.

(** A primitive that verifies clean tokens as the reference one does and
    takes anything else, the empty string or a text with spaces, for a token
    without claims. *)
Definition lenient_jwt : JwtPrimitive :=
  {| jwt_sign := ref_sign;
     jwt_verify := λ tok key now,
       if clean tok then ref_verify tok key now else inr ∅ |}.

(** A user record with more than the identity in it. *)
Definition full_user : object :=
  <["password" := VStr "hunter2"]> sample_user.

(** The token [createJWT] issues for a user record with no field at all. *)
Definition anonymous_token : string :=
  match createJWT sample_env 1700000000 ∅ with
  | inr tok => tok
  | inl _ => ""
  end.

(** A header with two spaces between the scheme and the sample token. *)
Definition wide_header : string := "Bearer  " +:+ sample_token.

(** A serializer for the samples: the first property of the object, between
    braces. *)
Definition sample_stringify (o : object) : string :=
  match map_to_list o with
  | (k, VStr v) :: _ => "{" +:+ k +:+ ":" +:+ v +:+ "}"
  | _ => "{}"
  end.

End Samples.

(** * Lemmas *)

(** ** Strings *)

Lemma truthy_Some (o : option string) (s : string) :
  truthy o = Some s ↔ o = Some s ∧ s ≠ "".
Proof.
  destruct o as [[|c t]|]; simpl; split.
  - discriminate.
  - intros [[= <-] Hne]. contradiction.
  - intros [= <-]. split; [reflexivity | discriminate].
  - intros [[= ->] _]. reflexivity.
  - discriminate.
  - intros [? _]. discriminate.
Qed.

Lemma split_space_free (s : string) :
  space_free s = true → split " " s = [s].
Proof.
  induction s as [|c s IH]; simpl; [reflexivity |].
  intros [Hc Hs]%andb_prop. rewrite (negb_true_iff _) in Hc.
  rewrite Hc, (IH Hs). reflexivity.
Qed.

Lemma split_app_space (a b : string) :
  space_free a = true → split " " (a +:+ String " " b) = a :: split " " b.
Proof.
  induction a as [|c a IH]; simpl; [reflexivity |].
  intros [Hc Ha]%andb_prop. rewrite (negb_true_iff _) in Hc.
  change (String c a +:+ String " " b) with (String c (a +:+ String " " b)).
  simpl. rewrite Hc, (IH Ha). reflexivity.
Qed.

Lemma str_app_nil_r (s : string) : s +:+ "" = s.
Proof.
  induction s as [|c s IH]; [reflexivity |].
  change (String c s +:+ "") with (String c (s +:+ "")). now rewrite IH.
Qed.

Lemma str_app_assoc (a b c : string) : (a +:+ b) +:+ c = a +:+ (b +:+ c).
Proof.
  induction a as [|x a IH]; [reflexivity |].
  change (String x a +:+ b) with (String x (a +:+ b)).
  change (String x (a +:+ b) +:+ c) with (String x ((a +:+ b) +:+ c)).
  change (String x a +:+ (b +:+ c)) with (String x (a +:+ (b +:+ c))).
  now rewrite IH.
Qed.

Lemma space_free_app (a b : string) :
  space_free (a +:+ b) = space_free a && space_free b.
Proof.
  induction a as [|x a IH]; [reflexivity |].
  change (String x a +:+ b) with (String x (a +:+ b)). simpl.
  now rewrite IH, andb_assoc.
Qed.

Lemma bit_string_space_free (s : string) :
  bit_string s = true → space_free s = true.
Proof.
  induction s as [|c s IH]; [reflexivity |]. simpl.
  intros [Hc Hs]%andb_prop. rewrite (IH Hs), andb_true_r.
  apply negb_true_iff, Ascii.eqb_neq. intros ->. discriminate.
Qed.

(** Where the first J stands in a text that begins with digits. *)
Lemma first_J (b b' x y : string) :
  bit_string b = true → bit_string b' = true →
  b +:+ String "J" x = b' +:+ String "J" y → b = b' ∧ x = y.
Proof.
  revert b'. induction b as [|c b IH]; intros [|c' b']; simpl.
  - intros _ _ [= ->]. split; reflexivity.
  - intros _ Hb' Heq. injection Heq as <- _. discriminate.
  - intros Hb _ Heq. injection Heq as -> _. discriminate.
  - intros [_ Hb]%andb_prop [_ Hb']%andb_prop Heq.
    injection Heq as <- Heq.
    destruct (IH b' Hb Hb' Heq) as [-> ->]. split; reflexivity.
Qed.

Lemma str_length_app (a b : string) :
  String.length (a +:+ b) = (String.length a + String.length b)%nat.
Proof. induction a as [|c a IH]; simpl; [reflexivity | now rewrite <- IH]. Qed.

Lemma str_take_app (a b : string) : str_take (String.length a) (a +:+ b) = a.
Proof.
  induction a as [|c a IH]; simpl; [now destruct b |].
  change (String c a +:+ b) with (String c (a +:+ b)). simpl. now rewrite IH.
Qed.

Lemma div2_double (n : nat) : Nat.div2 (n + n) = n.
Proof.
  replace (n + n)%nat with (2 * n)%nat by lia. apply Nat.div2_double.
Qed.

Lemma half_double (a : string) :
  str_take (Nat.div2 (String.length (a +:+ a))) (a +:+ a) = a.
Proof. rewrite str_length_app, div2_double. apply str_take_app. Qed.

Lemma list_ascii_app (a b : string) :
  list_ascii_of_string (a +:+ b)
  = (list_ascii_of_string a ++ list_ascii_of_string b)%list.
Proof.
  induction a as [|c a IH]; simpl; [reflexivity |].
  change (String c a +:+ b) with (String c (a +:+ b)). simpl. now rewrite IH.
Qed.

(** Two doubled lists that differ in one position only are equal there
    too. *)
Lemma doubled_differ_once {A} (a b pre post : list A) (c c' : A) :
  (a ++ a = pre ++ c :: post)%list → (b ++ b = pre ++ c' :: post)%list →
  c = c'.
Proof.
  intros Ha Hb.
  assert (Hlen : List.length a = List.length b).
  { apply (f_equal List.length) in Ha, Hb.
    rewrite !length_app in Ha, Hb. simpl in Ha, Hb. lia. }
  assert (Hab : a = b).
  { destruct (decide (List.length pre < List.length a)%nat) as [Hlt|Hge].
    - pose proof (f_equal (drop (List.length a)) Ha) as Ha'.
      pose proof (f_equal (drop (List.length a)) Hb) as Hb'.
      rewrite drop_app_length in Ha'.
      rewrite Hlen in Hb' at 1. rewrite drop_app_length in Hb'.
      rewrite drop_app_ge in Ha', Hb' by lia.
      destruct (List.length a - List.length pre)%nat as [|k] eqn:Hk; [lia |].
      simpl in Ha', Hb'. congruence.
    - pose proof (f_equal (take (List.length a)) Ha) as Ha'.
      pose proof (f_equal (take (List.length a)) Hb) as Hb'.
      rewrite take_app_length in Ha'.
      rewrite Hlen in Hb' at 1. rewrite take_app_length in Hb'.
      rewrite take_app_le in Ha', Hb' by lia.
      congruence. }
  subst b. rewrite Ha in Hb. apply app_inv_head in Hb. congruence.
Qed.

Lemma mutation_not_doubled (a b tok' : string) :
  mutation (a +:+ a) tok' → tok' ≠ b +:+ b.
Proof.
  intros (pre & c & c' & post & Hne & Ha & ->) Hb.
  apply Hne.
  apply (f_equal list_ascii_of_string) in Ha, Hb.
  rewrite !list_ascii_app in Ha, Hb. simpl in Ha, Hb.
  symmetry in Hb. exact (doubled_differ_once _ _ _ _ _ _ Ha Hb).
Qed.

Lemma bits_pos_bits (p : positive) : bits_pos (pos_bits p) = Some p.
Proof. induction p as [p IH|p IH|]; simpl; rewrite ?IH; reflexivity. Qed.

Lemma pos_bits_bit_string (p : positive) : bit_string (pos_bits p) = true.
Proof. induction p as [p IH|p IH|]; simpl; rewrite ?IH; reflexivity. Qed.

Lemma bits_pos_bit_string (s : string) (p : positive) :
  bits_pos s = Some p → bit_string s = true.
Proof.
  revert p. induction s as [|c s IH]; intros p; [reflexivity |]. simpl.
  destruct (Ascii.eqb c "0"); simpl.
  - destruct (bits_pos s) as [p'|]; [| discriminate]. intros _. eauto.
  - destruct (Ascii.eqb c "1"); [| discriminate]. simpl.
    destruct (bits_pos s) as [p'|]; [| discriminate]. intros _. eauto.
Qed.

Lemma unseal_Some (half : string) (body : object) (k : string) :
  unseal half = Some (body, k) →
  ∃ bits, half = String "J" bits ∧ bit_string bits = true.
Proof.
  destruct half as [|c bits]; [discriminate |]. simpl.
  destruct (Ascii.eqb c "J") eqn:Hc; [| discriminate].
  apply Ascii.eqb_eq in Hc as ->.
  destruct (bits_pos bits) as [p|] eqn:Hbits; [| discriminate].
  intros _. exists bits. split; [reflexivity |].
  exact (bits_pos_bit_string _ _ Hbits).
Qed.

Lemma unseal_seal (body : object) (k : string) :
  unseal (seal body k) = Some (body, k).
Proof.
  unfold unseal, seal. simpl. rewrite bits_pos_bits. simpl.
  apply decode_encode.
Qed.

(** ** The reference primitive satisfies the laws *)

Lemma ref_sign_inr (p : object) (key : option string) (iat : Z) (tok : string) :
  ref_sign p key iat = inr tok →
  ∃ k body, truthy key = Some k ∧ tok = seal body k +:+ seal body k
            ∧ (p !! "iat" = None → body = <["iat" := VNum iat]> p).
Proof.
  unfold ref_sign. destruct (truthy key) as [k|]; [| discriminate].
  intros [= <-]. exists k. eexists. repeat split.
  intros ->. reflexivity.
Qed.

Lemma ref_signs_with_secret : @SignsWithSecret reference_jwt.
Proof.
  intros p s now Hs _. simpl. unfold ref_sign.
  destruct s as [|c s]; [contradiction |]. simpl. eauto.
Qed.

Lemma ref_sign_needs_secret : @SignNeedsSecret reference_jwt.
Proof.
  intros p key now Hkey. simpl. unfold ref_sign. rewrite Hkey. eauto.
Qed.

Lemma ref_tokens_non_empty : @TokensNonEmpty reference_jwt.
Proof.
  intros p key iat tok Hsign.
  apply ref_sign_inr in Hsign as (k & body & _ & -> & _). discriminate.
Qed.

Lemma ref_issued_at_round_trip : @IssuedAtRoundTrip reference_jwt.
Proof.
  intros p key iat tok now (Hiat & Hexp & _) Hsign. simpl in *.
  apply ref_sign_inr in Hsign as (k & body & Hkey & -> & Hbody).
  specialize (Hbody Hiat). subst body.
  unfold ref_verify. rewrite Hkey, half_double.
  destruct (decide _) as [_|Hne]; [| contradiction].
  rewrite unseal_seal.
  destruct (decide (k = k)) as [_|Hne]; [| contradiction].
  unfold check_expiry. rewrite lookup_insert_ne by discriminate.
  rewrite Hexp. reflexivity.
Qed.

Lemma ref_only_signing_key : @VerifiableOnlyWithSigningKey reference_jwt.
Proof.
  intros p s iat tok key now Hsign Hkey. simpl in *.
  apply ref_sign_inr in Hsign as (k & body & Hs & -> & _).
  apply truthy_Some in Hs as [[= <-] _].
  unfold ref_verify. destruct (truthy key) as [k'|] eqn:Hk'; [| eauto].
  apply truthy_Some in Hk' as [-> _].
  rewrite half_double.
  destruct (decide _) as [_|Hne]; [| contradiction].
  rewrite unseal_seal.
  destruct (decide (s = k')) as [->|_]; [contradiction | eauto].
Qed.

Lemma ref_tamper_evident : @TamperEvident reference_jwt.
Proof.
  intros p key iat tok tok' now Hsign Hmut. simpl in *.
  apply ref_sign_inr in Hsign as (k & body & Hkey & -> & _).
  unfold ref_verify. rewrite Hkey.
  destruct (decide _) as [Hdouble|_]; [| eauto].
  exfalso. exact (mutation_not_doubled _ _ _ Hmut Hdouble).
Qed.

Lemma ref_tokens_space_free : @TokensSpaceFree reference_jwt.
Proof.
  intros p key iat tok Hsign. simpl in *.
  apply ref_sign_inr in Hsign as (k & body & _ & -> & _).
  rewrite space_free_app, andb_diag. unfold seal. simpl.
  apply bit_string_space_free, pos_bits_bit_string.
Qed.

Lemma ref_truncation_evident : @TruncationEvident reference_jwt.
Proof.
  intros p key iat tok pre c post now Hsign Htok. simpl in *.
  apply ref_sign_inr in Hsign as (k & body & Hkey & -> & _).
  unfold ref_verify. rewrite Hkey.
  destruct (decide _) as [Hdouble|_]; [| eauto].
  destruct (unseal _) as [[body' k']|] eqn:Hunseal; [| eauto].
  exfalso.
  apply unseal_Some in Hunseal as (bits' & Hhalf & Hbits').
  rewrite Hhalf in Hdouble. rewrite Hdouble in Htok. clear Hdouble Hhalf.
  unfold seal in Htok.
  set (bits := pos_bits (encode (body, k))) in *.
  assert (Hbits : bit_string bits = true) by apply pos_bits_bit_string.
  rewrite str_app_assoc in Htok.
  change (String "J" bits +:+ String "J" bits)
    with (String "J" (bits +:+ String "J" bits)) in Htok.
  change (String "J" bits' +:+ (String "J" bits' +:+ String c post))
    with (String "J" (bits' +:+ String "J" (bits' +:+ String c post)))
    in Htok.
  injection Htok as Htok.
  destruct (first_J _ _ _ _ Hbits Hbits' Htok) as [Heq Hlong].
  rewrite Heq in Hlong. apply (f_equal String.length) in Hlong.
  rewrite str_length_app in Hlong. simpl in Hlong. lia.
Qed.

(** ** The gate, branch by branch *)

Ltac run_gate :=
  unfold forwards, rejects, gate, api, exec, protect, not_authorized,
    get_authorization, set_user, res_status, res_send, console_log,
    forwarded, rejected, mbind, M_bind, mret, M_ret;
  simpl.

Section Gate.

Context `{JwtPrimitive}.
Implicit Types (env : gmap string string) (now : Z) (w : world).

Lemma protect_header_falsy env now w :
  truthy (headers_authorization (req w)) = None → rejects env now w [].
Proof.
  intros Hb next. run_gate. rewrite Hb. simpl. now rewrite app_nil_r.
Qed.

Lemma protect_token_falsy env now w (h : string) :
  truthy (headers_authorization (req w)) = Some h →
  truthy (second (split " " h)) = None →
  rejects env now w [LogString "here"].
Proof. intros Hb Ht next. run_gate. rewrite Hb, Ht. reflexivity. Qed.

Lemma protect_verify_throws env now w (h token : string) (e : js_error) :
  truthy (headers_authorization (req w)) = Some h →
  truthy (second (split " " h)) = Some token →
  jwt_verify token (env !! "JWT_SECRET") now = inl e →
  rejects env now w [LogError e].
Proof. intros Hb Ht Hv next. run_gate. rewrite Hb, Ht, Hv. reflexivity. Qed.

Lemma protect_verify_returns env now w (h token : string) (payload : object) :
  truthy (headers_authorization (req w)) = Some h →
  truthy (second (split " " h)) = Some token →
  jwt_verify token (env !! "JWT_SECRET") now = inr payload →
  forwards env now w payload.
Proof. intros Hb Ht Hv next. run_gate. rewrite Hb, Ht, Hv. reflexivity. Qed.

Lemma forwards_rejects_exclusive env now w (payload : object) logs :
  forwards env now w payload → rejects env now w logs → False.
Proof.
  intros Hf Hr. specialize (Hf (mret tt)). rewrite (Hr (mret tt)) in Hf.
  apply (f_equal (λ r, List.length (sent (res r.2)))) in Hf.
  simpl in Hf. rewrite length_app in Hf. simpl in Hf. lia.
Qed.

Lemma spy_calls_forwarded (payload : object) w :
  spy_calls (exec spy (forwarded payload w)) = S (spy_calls w).
Proof.
  unfold spy_calls, exec, spy, console_log, forwarded. simpl.
  rewrite !list.filter_app, !length_app.
  rewrite !filter_cons, !filter_nil.
  rewrite decide_False by discriminate.
  rewrite decide_True by reflexivity. simpl. lia.
Qed.

Lemma spy_calls_rejected logs w :
  logs = [] ∨ logs = [LogString "here"] ∨ (∃ e, logs = [LogError e]) →
  spy_calls (rejected logs w) = spy_calls w.
Proof.
  unfold spy_calls, rejected. simpl.
  rewrite list.filter_app, length_app.
  intros [-> | [-> | [e ->]]]; rewrite ?filter_cons, ?filter_nil.
  - simpl. lia.
  - rewrite decide_False by discriminate. simpl. lia.
  - rewrite decide_False by discriminate. simpl. lia.
Qed.

(** Every request meets exactly the four branches of [protect]. *)
Lemma protect_cases env now w :
  (∃ payload, failure env now w = None ∧ forwards env now w payload)
  ∨ (∃ c logs, failure env now w = Some c ∧ rejects env now w logs
       ∧ (logs = [] ∨ logs = [LogString "here"] ∨ ∃ e, logs = [LogError e])).
Proof.
  unfold failure.
  destruct (truthy (headers_authorization (req w))) as [h|] eqn:Hb.
  - destruct (truthy (second (split " " h))) as [token|] eqn:Ht.
    + destruct (jwt_verify token (env !! "JWT_SECRET") now) as [e|payload] eqn:Hv.
      * right. exists (VerificationFailed e), [LogError e].
        eauto 10 using protect_verify_throws.
      * left. exists payload. eauto using protect_verify_returns.
    + right. exists MalformedCredential, [LogString "here"].
      eauto 10 using protect_token_falsy.
  - right. exists MissingHeader, []. eauto 10 using protect_header_falsy.
Qed.

(** ** The claims that hold of any signing primitive *)

(** C2.  A request without an Authorization header: the gate sets the status
    to 401, sends "Not authorized" and returns; [next] does not run, and the
    request and the console are left as they were. *)
Theorem protect_missing_header env now w :
  headers_authorization (req w) = None →
  (∀ next,
     protect env now next w
     = (tt, World (req w)
                  (Response 401 (sent (res w) ++ ["Not authorized"]))
                  (console w)))
  ∧ spy_calls (exec (protect env now spy) w) = spy_calls w.
Proof.
  intros Hnone.
  assert (Hrej : rejects env now w []).
  { apply protect_header_falsy. now rewrite Hnone. }
  split.
  - intros next. rewrite (Hrej next). unfold rejected. now rewrite app_nil_r.
  - unfold exec. rewrite (Hrej spy). apply spy_calls_rejected. auto.
Qed.

(** C7.  Whatever a request fails for (no header, a malformed credential, a
    token whose verification throws, be it for its signature or for its
    expiry) the response is the same: status 401 and the body
    "Not authorized", once; two requests that fail for different causes get
    equal responses.  A request that fails for no cause is forwarded. *)
Theorem uniform_rejection env1 env2 now1 now2 (w1 w2 : world) (c1 c2 : cause) :
  failure env1 now1 w1 = Some c1 →
  failure env2 now2 w2 = Some c2 →
  (∀ next, res (exec (protect env1 now1 next) w1)
           = Response 401 (sent (res w1) ++ ["Not authorized"]))
  ∧ (res w1 = res w2 →
     ∀ next1 next2, res (exec (protect env1 now1 next1) w1)
                    = res (exec (protect env2 now2 next2) w2))
  ∧ (∀ env now w, failure env now w = None → ∃ payload, forwards env now w payload).
Proof.
  intros Hc1 Hc2.
  assert (Hres : ∀ env now w c next, failure env now w = Some c →
            res (exec (protect env now next) w)
            = Response 401 (sent (res w) ++ ["Not authorized"])).
  { intros env now w c next Hc.
    destruct (protect_cases env now w)
      as [(payload & Hnone & _) | (c' & logs & _ & Hrej & _)]; [congruence |].
    unfold exec. rewrite (Hrej next). reflexivity. }
  split; [| split].
  - intros next. eauto.
  - intros Hsame next1 next2.
    rewrite (Hres _ _ _ _ next1 Hc1), (Hres _ _ _ _ next2 Hc2).
    now rewrite Hsame.
  - intros env now w Hnone.
    destruct (protect_cases env now w)
      as [(payload & _ & Hfw) | (c' & logs & Hsome & _)]; [eauto | congruence].
Qed.

(** The four branches again, each with what decides it: the header, the
    part taken from it, and the verdict of [jwt.verify] on that part. *)
Lemma protect_branches env now w :
  (∃ (h token : string) (payload : object),
      headers_authorization (req w) = Some h
      ∧ truthy (second (split " " h)) = Some token
      ∧ jwt_verify token (env !! "JWT_SECRET") now = inr payload
      ∧ forwards env now w payload)
  ∨ (∃ logs,
       (truthy (headers_authorization (req w)) = None ∧ logs = []
        ∨ (∃ h : string,
             truthy (headers_authorization (req w)) = Some h
             ∧ truthy (second (split " " h)) = None
             ∧ logs = [LogString "here"])
        ∨ (∃ (h token : string) (e : js_error),
             truthy (headers_authorization (req w)) = Some h
             ∧ truthy (second (split " " h)) = Some token
             ∧ jwt_verify token (env !! "JWT_SECRET") now = inl e
             ∧ logs = [LogError e]))
       ∧ rejects env now w logs).
Proof.
  destruct (truthy (headers_authorization (req w))) as [h|] eqn:Hb.
  - destruct (truthy (second (split " " h))) as [token|] eqn:Ht.
    + destruct (jwt_verify token (env !! "JWT_SECRET") now)
        as [e|payload] eqn:Hv.
      * right. exists [LogError e]. split.
        -- right. right. exists h, token, e. auto.
        -- exact (protect_verify_throws _ _ _ _ _ _ Hb Ht Hv).
      * left. exists h, token, payload.
        pose proof Hb as [Hh _]%truthy_Some.
        split; [exact Hh | split; [exact Ht | split; [exact Hv |]]].
        exact (protect_verify_returns _ _ _ _ _ _ Hb Ht Hv).
    + right. exists [LogString "here"]. split.
      * right. left. exists h. auto.
      * exact (protect_token_falsy _ _ _ _ Hb Ht).
  - right. exists []. split; [left; auto |].
    now apply protect_header_falsy.
Qed.

(** C8.  On every request the gate ends in exactly one of two ways.  Either
    it forwards: the header has a second space-separated part, that part
    verifies, and [next] runs once, as the last step, on a world in which
    the claim [jwt.verify] decoded from it is attached to the request, the
    request headers and the response being as they were.  Or it rejects,
    for a missing header, a missing part or a verification that throws: the
    response is the 401 one and the router mounted behind the gate does not
    run.  Never both. *)
Theorem one_terminal_outcome env now w :
  let forward :=
    ∃ (h token : string) (payload : object),
      headers_authorization (req w) = Some h
      ∧ truthy (second (split " " h)) = Some token
      ∧ jwt_verify token (env !! "JWT_SECRET") now = inr payload
      ∧ forwards env now w payload
      ∧ spy_calls (exec (protect env now spy) w) = S (spy_calls w)
      ∧ res (forwarded payload w) = res w
      ∧ headers_authorization (req (forwarded payload w))
        = headers_authorization (req w)
      ∧ user (req (forwarded payload w)) = Some payload in
  let reject :=
    ∃ logs,
      (truthy (headers_authorization (req w)) = None ∧ logs = []
       ∨ (∃ h : string,
            truthy (headers_authorization (req w)) = Some h
            ∧ truthy (second (split " " h)) = None
            ∧ logs = [LogString "here"])
       ∨ (∃ (h token : string) (e : js_error),
            truthy (headers_authorization (req w)) = Some h
            ∧ truthy (second (split " " h)) = Some token
            ∧ jwt_verify token (env !! "JWT_SECRET") now = inl e
            ∧ logs = [LogError e]))
      ∧ (∀ router, api env now router w = (tt, rejected logs w))
      ∧ spy_calls (exec (protect env now spy) w) = spy_calls w
      ∧ res (rejected logs w)
        = Response 401 (sent (res w) ++ ["Not authorized"])
      ∧ req (rejected logs w) = req w in
  (forward ∨ reject) ∧ ¬ (forward ∧ reject).
Proof.
  simpl. split.
  - destruct (protect_branches env now w)
      as [(h & token & payload & Hh & Ht & Hv & Hfw)
         | (logs & Hcause & Hrej)].
    + left. exists h, token, payload.
      repeat (split; [assumption |]).
      split; [| repeat split].
      unfold exec. rewrite (Hfw spy). apply spy_calls_forwarded.
    + right. exists logs.
      split; [exact Hcause | split; [exact Hrej | split; [| split]]];
        try reflexivity.
      unfold exec. rewrite (Hrej spy). apply spy_calls_rejected.
      destruct Hcause as [[_ ->] | [(h & _ & _ & ->)
                                   | (h & token & e & _ & _ & _ & ->)]];
        eauto.
  - intros [(h & token & payload & _ & _ & _ & Hfw & _)
            (logs & _ & Hrej & _)].
    exact (forwards_rejects_exclusive _ _ _ _ _ Hfw Hrej).
Qed.

End Gate.

(** ** Parsing the header *)

Section Header.

Context `{JwtPrimitive}.
Implicit Types (env : gmap string string) (now : Z) (w : world).

(** The gate as a function of the second space-separated part. *)
Lemma protect_by_second_part env now w (h : string) next :
  headers_authorization (req w) = Some h →
  protect env now next w
  = match truthy (second (split " " h)) with
    | None =>
        (tt, rejected (if decide (h = "") then [] else [LogString "here"]) w)
    | Some token =>
        match jwt_verify token (env !! "JWT_SECRET") now with
        | inr payload => next (forwarded payload w)
        | inl e => (tt, rejected [LogError e] w)
        end
    end.
Proof.
  intros Hh.
  destruct (decide (h = "")) as [-> | Hne].
  - simpl. apply protect_header_falsy. now rewrite Hh.
  - assert (Hb : truthy (headers_authorization (req w)) = Some h).
    { rewrite Hh. now apply truthy_Some. }
    destruct (truthy (second (split " " h))) as [token|] eqn:Ht.
    + destruct (jwt_verify token (env !! "JWT_SECRET") now) as [e|payload] eqn:Hv.
      * exact (protect_verify_throws _ _ _ _ _ _ Hb Ht Hv next).
      * exact (protect_verify_returns _ _ _ _ _ _ Hb Ht Hv next).
    + exact (protect_token_falsy _ _ _ _ Hb Ht next).
Qed.

(** C3, amended.  The header is split at the space character and the second
    part is taken.  A header without a second part, or with an empty one, is
    rejected with 401 and [next] does not run; otherwise the verdict is the
    one of [jwt.verify] on exactly that part. *)
Theorem protect_parses_second_space_part env now w (h : string) :
  headers_authorization (req w) = Some h →
  (truthy (second (split " " h)) = None →
     (∃ logs, rejects env now w logs)
     ∧ (∀ next, res (exec (protect env now next) w)
                = Response 401 (sent (res w) ++ ["Not authorized"]))
     ∧ spy_calls (exec (protect env now spy) w) = spy_calls w)
  ∧ (∀ token, truthy (second (split " " h)) = Some token →
       ∀ next,
         protect env now next w
         = match jwt_verify token (env !! "JWT_SECRET") now with
           | inr payload => next (forwarded payload w)
           | inl e => (tt, rejected [LogError e] w)
           end).
Proof.
  intros Hh. split.
  - intros Ht.
    assert (Hrej : rejects env now w
                     (if decide (h = "") then [] else [LogString "here"])).
    { intros next. rewrite (protect_by_second_part _ _ _ _ _ Hh), Ht.
      reflexivity. }
    split; [eauto | split].
    + intros next. unfold exec. rewrite (Hrej next). reflexivity.
    + unfold exec. rewrite (Hrej spy). apply spy_calls_rejected.
      destruct (decide (h = "")); auto.
  - intros token Ht next.
    rewrite (protect_by_second_part _ _ _ _ _ Hh), Ht. reflexivity.
Qed.

Lemma split_scheme_token (scheme token : string) :
  space_free scheme = true → space_free token = true →
  split " " (scheme +:+ " " +:+ token) = [scheme; token].
Proof.
  intros Hs Ht.
  change (scheme +:+ " " +:+ token) with (scheme +:+ String " " token).
  rewrite (split_app_space _ _ Hs), (split_space_free _ Ht). reflexivity.
Qed.

(** C10.  The scheme word is not looked at.  Two headers with the same
    second space-separated part get the same response, the same attached
    claim and the same number of runs of [next]; and a token that verifies
    is forwarded behind any first word. *)
Theorem scheme_word_unchecked env now w :
  (∀ h1 h2 : string,
     second (split " " h1) = second (split " " h2) →
     let w1 := with_authorization (Some h1) w in
     let w2 := with_authorization (Some h2) w in
     res (gate env now w1) = res (gate env now w2)
     ∧ user (req (gate env now w1)) = user (req (gate env now w2))
     ∧ spy_calls (exec (protect env now spy) w1)
       = spy_calls (exec (protect env now spy) w2))
  ∧ (∀ (scheme token : string) (payload : object),
       space_free scheme = true →
       space_free token = true →
       token ≠ "" →
       jwt_verify token (env !! "JWT_SECRET") now = inr payload →
       forwards env now
         (with_authorization (Some (scheme +:+ " " +:+ token)) w) payload).
Proof.
  split.
  - intros h1 h2 Heq w1 w2.
    assert (Hh1 : headers_authorization (req w1) = Some h1) by reflexivity.
    assert (Hh2 : headers_authorization (req w2) = Some h2) by reflexivity.
    unfold gate, exec.
    rewrite !(protect_by_second_part _ _ _ _ _ Hh1),
            !(protect_by_second_part _ _ _ _ _ Hh2), Heq.
    destruct (truthy (second (split " " h2))) as [token|].
    + destruct (jwt_verify token (env !! "JWT_SECRET") now) as [e|payload].
      * split; [| split]; reflexivity.
      * split; [| split]; reflexivity.
    + split; [| split]; try reflexivity.
      cbn [snd].
      rewrite !spy_calls_rejected; [reflexivity | |];
        match goal with |- context [decide ?P] => destruct (decide P) end;
        auto.
  - intros scheme token payload Hs Ht Hne Hv next.
    set (h := scheme +:+ " " +:+ token).
    assert (Hh : headers_authorization
                   (req (with_authorization (Some h) w)) = Some h)
      by reflexivity.
    rewrite (protect_by_second_part _ _ _ _ _ Hh).
    unfold h. rewrite (split_scheme_token _ _ Hs Ht).
    change (second [scheme; token]) with (Some token).
    assert (Htr : truthy (Some token) = Some token) by now apply truthy_Some.
    rewrite Htr, Hv. reflexivity.
Qed.

End Header.

(** ** Issued tokens *)

Section Issuer.

Context `{JwtPrimitive}.
Implicit Types (env : gmap string string) (now iat : Z) (w : world).

Lemma identity_payload_lookup (usr : object) (k : string) :
  identity_payload usr !! k
  = if decide (k = "id") then usr !! "id"
    else if decide (k = "username") then usr !! "username"
    else None.
Proof.
  unfold identity_payload.
  destruct (usr !! "id") as [vid|], (usr !! "username") as [vname|];
    repeat case_decide; subst; simplify_map_eq; reflexivity.
Qed.

Lemma identity_payload_unregistered (usr : object) :
  unregistered (identity_payload usr).
Proof. repeat split; rewrite identity_payload_lookup; reflexivity. Qed.

Lemma identity_payload_record (vid vname : value) :
  identity_payload {[ "id" := vid; "username" := vname ]}
  = {[ "id" := vid; "username" := vname ]}.
Proof.
  apply map_eq. intros k. rewrite identity_payload_lookup.
  repeat case_decide; subst; simplify_map_eq; reflexivity.
Qed.

(** C1, amended.  When the second space-separated part of the header is a
    token [createJWT] issued under the configured secret, the gate calls
    [next], once, and the request it hands over carries a claim with the id
    and the username given to [createJWT], next to the issued-at stamp. *)
Theorem protect_forwards_issued_token env now iat (usr : object)
    (tok h : string) w :
  IssuedAtRoundTrip →
  TokensNonEmpty →
  createJWT env iat usr = inr tok →
  headers_authorization (req w) = Some h →
  second (split " " h) = Some tok →
  let claim := <["iat" := VNum iat]> (identity_payload usr) in
  forwards env now w claim
  ∧ spy_calls (exec (protect env now spy) w) = S (spy_calls w)
  ∧ user (req (forwarded claim w)) = Some claim
  ∧ claim !! "id" = usr !! "id"
  ∧ claim !! "username" = usr !! "username".
Proof.
  intros Hround Hnonempty Hissue Hh Hsecond claim.
  unfold createJWT in Hissue.
  assert (Hverify : jwt_verify tok (env !! "JWT_SECRET") now = inr claim).
  { apply Hround; [apply identity_payload_unregistered | exact Hissue]. }
  assert (Hfw : forwards env now w claim).
  { intros next. rewrite (protect_by_second_part _ _ _ _ _ Hh), Hsecond.
    assert (Htr : truthy (Some tok) = Some tok).
    { apply truthy_Some. split; [reflexivity | eauto]. }
    rewrite Htr, Hverify. reflexivity. }
  split; [exact Hfw | split; [| split; [reflexivity | split]]].
  - unfold exec. rewrite (Hfw spy). apply spy_calls_forwarded.
  - unfold claim. rewrite lookup_insert_ne by discriminate.
    rewrite identity_payload_lookup. reflexivity.
  - unfold claim. rewrite lookup_insert_ne by discriminate.
    rewrite identity_payload_lookup. reflexivity.
Qed.

(** What the gate takes from a header that carries [tok]: all of [tok]
    when it has no space in it, and what stands before its first space
    otherwise. *)
Lemma second_part_of_carrier (h tok : string) :
  carries h tok →
  (space_free tok = true → second (split " " h) = Some tok)
  ∧ (∀ pre post : string,
       space_free pre = true → tok = pre +:+ String " " post →
       second (split " " h) = Some pre).
Proof.
  intros (scheme & Hscheme & Hh). split.
  - intros Htok. destruct Hh as [-> | [rest ->]].
    + now rewrite split_scheme_token.
    + change (scheme +:+ " " +:+ tok +:+ " " +:+ rest)
        with (scheme +:+ String " " (tok +:+ String " " rest)).
      now rewrite !split_app_space.
  - intros pre post Hpre ->. destruct Hh as [-> | [rest ->]].
    + change (scheme +:+ " " +:+ pre +:+ String " " post)
        with (scheme +:+ String " " (pre +:+ String " " post)).
      now rewrite !split_app_space.
    + change (scheme +:+ " " +:+ (pre +:+ String " " post) +:+ " " +:+ rest)
        with (scheme +:+ String " "
                ((pre +:+ String " " post) +:+ String " " rest)).
      rewrite str_app_assoc.
      change (String " " post +:+ String " " rest)
        with (String " " (post +:+ String " " rest)).
      rewrite (split_app_space scheme) by assumption.
      rewrite (split_app_space pre) by assumption.
      reflexivity.
Qed.

(** A request is rejected when the part taken from its header does not
    verify. *)
Lemma rejects_by_second_part env now w (h part : string) :
  headers_authorization (req w) = Some h →
  second (split " " h) = Some part →
  (∃ e, jwt_verify part (env !! "JWT_SECRET") now = inl e) →
  ∃ logs, rejects env now w logs
          ∧ (logs = [] ∨ logs = [LogString "here"] ∨ ∃ e, logs = [LogError e]).
Proof.
  intros Hh Hsecond [e He].
  destruct (truthy (Some part)) as [token|] eqn:Htr.
  - pose proof Htr as Hpart. apply truthy_Some in Hpart as [[= <-] _].
    exists [LogError e]. split; [| eauto].
    intros next.
    rewrite (protect_by_second_part _ _ _ _ _ Hh), Hsecond, Htr, He.
    reflexivity.
  - eexists. split.
    + intros next.
      rewrite (protect_by_second_part _ _ _ _ _ Hh), Hsecond, Htr.
      reflexivity.
    + destruct (decide (h = "")); auto.
Qed.

(** C4.  A request that carries a token signed with another secret than the
    configured one, or a validly signed token with one character changed,
    be it into a space: the token does not verify, and the gate rejects the
    request with 401 without running [next]. *)
Theorem protect_rejects_foreign_token env now (tok h : string) w :
  VerifiableOnlyWithSigningKey →
  TamperEvident →
  TokensSpaceFree →
  TruncationEvident →
  (∃ (p : object) (s : string) iat,
      jwt_sign p (Some s) iat = inr tok ∧ env !! "JWT_SECRET" ≠ Some s)
  ∨ (∃ (p : object) iat (tok0 : string),
      jwt_sign p (env !! "JWT_SECRET") iat = inr tok0 ∧ mutation tok0 tok) →
  headers_authorization (req w) = Some h →
  carries h tok →
  (∃ e, jwt_verify tok (env !! "JWT_SECRET") now = inl e)
  ∧ (∃ logs, rejects env now w logs)
  ∧ (∀ next, res (exec (protect env now next) w)
             = Response 401 (sent (res w) ++ ["Not authorized"]))
  ∧ spy_calls (exec (protect env now spy) w) = spy_calls w.
Proof.
  intros Honly Htamper Hfree Htrunc Htok Hh Hcarries.
  assert (Hfail : ∃ e, jwt_verify tok (env !! "JWT_SECRET") now = inl e).
  { destruct Htok as [(p & s & iat & Hsign & Hother)
                     | (p & iat & tok0 & Hsign & Hmut)].
    - exact (Honly p s iat tok _ now Hsign Hother).
    - exact (Htamper p _ iat tok0 tok now Hsign Hmut). }
  destruct (second_part_of_carrier h tok Hcarries) as [Hwhole Hcut].
  assert (Hpart : ∃ part,
             second (split " " h) = Some part
             ∧ ∃ e, jwt_verify part (env !! "JWT_SECRET") now = inl e).
  { destruct Htok as [(p & s & iat & Hsign & Hother)
                     | (p & iat & tok0 & Hsign & Hmut)].
    - exists tok. split; [| exact Hfail].
      apply Hwhole. exact (Hfree p _ iat tok Hsign).
    - destruct Hmut as (pre & c & c' & post & Hne & Htok0 & ->).
      pose proof (Hfree p _ iat tok0 Hsign) as Hfree0.
      rewrite Htok0, space_free_app in Hfree0.
      apply andb_prop in Hfree0 as [Hpre Hrest]. simpl in Hrest.
      apply andb_prop in Hrest as [Hc Hpost].
      destruct (Ascii.eqb c' " ") eqn:Hc'.
      + apply Ascii.eqb_eq in Hc' as ->.
        exists pre. split; [exact (Hcut pre post Hpre eq_refl) |].
        exact (Htrunc p _ iat tok0 pre c post now Hsign Htok0).
      + exists (pre +:+ String c' post). split; [| exact Hfail].
        apply Hwhole. rewrite space_free_app. simpl.
        now rewrite Hpre, Hc', Hpost. }
  destruct Hpart as (part & Hsecond & Hpartfail).
  destruct (rejects_by_second_part env now w h part Hh Hsecond Hpartfail)
    as (logs & Hrej & Hlogs).
  split; [exact Hfail | split; [eauto | split]].
  - intros next. unfold exec. rewrite (Hrej next). reflexivity.
  - unfold exec. rewrite (Hrej spy). now apply spy_calls_rejected.
Qed.

End Issuer.

(** ** Round trip, determinism, a missing secret *)

Section RoundTrip.

Context `{JwtPrimitive}.
Implicit Types (env : gmap string string) (now iat : Z) (w : world).

(** C5, amended.  With a secret configured, [createJWT] returns a token for
    every identity record, and verifying that token returns the record
    extended with the issued-at stamp [iat]: not the record itself, which is
    what remains when [iat] is dropped. *)
Theorem verify_createJWT_adds_issued_at env now iat (s : string)
    (vid vname : value) :
  SignsWithSecret →
  IssuedAtRoundTrip →
  env !! "JWT_SECRET" = Some s →
  s ≠ "" →
  let identity : object := {[ "id" := vid; "username" := vname ]} in
  ∃ tok,
    createJWT env iat identity = inr tok
    ∧ jwt_verify tok (env !! "JWT_SECRET") now
      = inr (<["iat" := VNum iat]> identity)
    ∧ <["iat" := VNum iat]> identity ≠ identity
    ∧ delete "iat" (<["iat" := VNum iat]> identity) = identity.
Proof.
  intros Hsigns Hround Hsecret Hs identity.
  assert (Hfresh : identity !! "iat" = None).
  { unfold identity. simplify_map_eq. reflexivity. }
  assert (Hpayload : identity_payload identity = identity)
    by apply identity_payload_record.
  assert (Hunreg : unregistered identity).
  { rewrite <- Hpayload. apply identity_payload_unregistered. }
  destruct (Hsigns identity s iat Hs Hunreg) as [tok Htok].
  exists tok. unfold createJWT. rewrite Hsecret, Hpayload.
  split; [exact Htok | split; [| split]].
  - now apply Hround.
  - intros Heq. apply (f_equal (lookup "iat")) in Heq.
    rewrite lookup_insert_eq, Hfresh in Heq. discriminate.
  - rewrite delete_insert_eq. now apply delete_id.
Qed.

(** C6, amended.  The token [createJWT] returns is a function of the id, the
    username, the secret and the second the clock shows: two calls that
    agree on these four return the same result, whatever else differs in the
    user record and in the environment; and a call changes nothing of the
    world it is made in. *)
Theorem createJWT_deterministic env1 env2 now (usr1 usr2 : object) :
  env1 !! "JWT_SECRET" = env2 !! "JWT_SECRET" →
  usr1 !! "id" = usr2 !! "id" →
  usr1 !! "username" = usr2 !! "username" →
  createJWT env1 now usr1 = createJWT env2 now usr2
  ∧ ∀ w, createJWT_call env1 now usr1 w = (createJWT env2 now usr2, w).
Proof.
  intros Hsecret Hid Hname.
  assert (Hsame : createJWT env1 now usr1 = createJWT env2 now usr2).
  { unfold createJWT. rewrite Hsecret.
    replace (identity_payload usr2) with (identity_payload usr1);
      [reflexivity |].
    apply map_eq. intros k. rewrite !identity_payload_lookup, Hid, Hname.
    reflexivity. }
  split; [exact Hsame |].
  intros w. unfold createJWT_call. rewrite Hsame. reflexivity.
Qed.

(** The clock is the fourth input: tokens issued at different seconds
    differ. *)
Lemma createJWT_stamped env iat1 iat2 (usr : object) (tok1 tok2 : string) :
  IssuedAtRoundTrip →
  iat1 ≠ iat2 →
  createJWT env iat1 usr = inr tok1 →
  createJWT env iat2 usr = inr tok2 →
  tok1 ≠ tok2.
Proof.
  intros Hround Hne H1 H2 Heq. subst tok2. unfold createJWT in *.
  pose proof (Hround _ _ _ _ 0 (identity_payload_unregistered usr) H1) as V1.
  pose proof (Hround _ _ _ _ 0 (identity_payload_unregistered usr) H2) as V2.
  rewrite V1 in V2. injection V2 as V2.
  apply (f_equal (lookup "iat")) in V2. rewrite !lookup_insert_eq in V2.
  congruence.
Qed.

(** C9, amended.  With no usable secret in the environment the start-up
    script still brings the server up on port 3001.  From then on
    [createJWT] returns no token, the exception of the signing primitive
    reaching its caller as it is, and the gate answers each request on its
    own: it forwards or rejects, and it rejects with 401 when verification
    throws. *)
Theorem missing_secret_is_handled_per_request
    (dotenv_file env0 : gmap string string) :
  SignNeedsSecret →
  truthy (dotenv_config dotenv_file env0 !! "JWT_SECRET") = None →
  let env := dotenv_config dotenv_file env0 in
  serves_traffic (index_ts dotenv_file env0) = true
  ∧ (∃ stdout, index_ts dotenv_file env0 = Listening 3001 env stdout)
  ∧ (∀ now (usr : object),
       ∃ e, createJWT env now usr = inl e
            ∧ jwt_sign (identity_payload usr) (env !! "JWT_SECRET") now = inl e)
  ∧ (∀ now w (h token : string) (e : js_error),
       headers_authorization (req w) = Some h →
       truthy (second (split " " h)) = Some token →
       jwt_verify token (env !! "JWT_SECRET") now = inl e →
       rejects env now w [LogError e]
       ∧ res (gate env now w)
         = Response 401 (sent (res w) ++ ["Not authorized"]))
  ∧ (∀ now w, (∃ payload, forwards env now w payload)
              ∨ (∃ logs, rejects env now w logs)).
Proof.
  intros Hneeds Hmissing env.
  split; [reflexivity | split; [eexists; reflexivity | split; [| split]]].
  - intros now usr.
    destruct (Hneeds (identity_payload usr) (env !! "JWT_SECRET") now Hmissing)
      as [e He].
    exists e. split; exact He.
  - intros now w h token e Hh Ht Hv.
    assert (Hrej : rejects env now w [LogError e]).
    { intros next. rewrite (protect_by_second_part _ _ _ _ _ Hh), Ht, Hv.
      reflexivity. }
    split; [exact Hrej |].
    unfold gate, exec. rewrite (Hrej (mret tt)). reflexivity.
  - intros now w.
    destruct (protect_cases env now w)
      as [(payload & _ & Hfw) | (c & logs & _ & Hrej & _)]; eauto.
Qed.

End RoundTrip.

(** * Beyond the claims *)

(** ** [split] *)

Lemma split_first (s : string) :
  (space_free s = true ∧ split " " s = [s])
  ∨ (∃ a s', space_free a = true ∧ s = a +:+ String " " s'
             ∧ split " " s = a :: split " " s').
Proof.
  induction s as [|c s IH]; [left; split; reflexivity |].
  simpl. destruct (Ascii.eqb c " ") eqn:Hc.
  - apply Ascii.eqb_eq in Hc as ->. right. exists "", s. repeat split.
  - destruct IH as [[Hfree Hs] | (a & s' & Hfree & -> & Hs)].
    + left. rewrite Hs. simpl. rewrite Hfree. split; reflexivity.
    + right. exists (String c a), s'. rewrite Hs. simpl. rewrite Hc, Hfree.
      repeat split.
Qed.

Lemma split_parts_space_free (s part : string) :
  part ∈ split " " s → space_free part = true.
Proof.
  revert part. induction s as [|c s IH]; intros part; simpl.
  - intros ->%list_elem_of_singleton. reflexivity.
  - destruct (Ascii.eqb c " ") eqn:Hc.
    + intros [-> | Hin]%elem_of_cons; [reflexivity | now apply IH].
    + destruct (split " " s) as [|p ps] eqn:Hs.
      * intros ->%list_elem_of_singleton. simpl. now rewrite Hc.
      * intros [-> | Hin]%elem_of_cons.
        -- simpl. rewrite Hc. simpl. apply IH. left.
        -- apply IH. now right.
Qed.

(** X10.  The parts of a string, joined by single spaces, are the string
    again; no part has a space in it; there is one part more than there are
    spaces. *)
Theorem split_join (s : string) :
  String.concat " " (split " " s) = s
  ∧ Forall (λ part, space_free part = true) (split " " s)
  ∧ List.length (split " " s) = S (count_spaces s).
Proof.
  split; [| split].
  - induction s as [|c s IH]; [reflexivity |].
    simpl. destruct (Ascii.eqb c " ") eqn:Hc.
    + apply Ascii.eqb_eq in Hc as ->.
      destruct (split " " s) as [|p ps] eqn:Hs.
      * destruct s; simpl in Hs; [discriminate |].
        destruct (Ascii.eqb _ _); [discriminate |].
        destruct (split " " s); discriminate.
      * change (String.concat " " ("" :: p :: ps))
          with (String " " (String.concat " " (p :: ps))).
        now rewrite IH.
    + destruct (split " " s) as [|p ps] eqn:Hs.
      * destruct s; simpl in Hs; [discriminate |].
        destruct (Ascii.eqb _ _); [discriminate |].
        destruct (split " " s); discriminate.
      * destruct ps as [|q qs].
        -- simpl in *. now rewrite IH.
        -- change (String.concat " " (String c p :: q :: qs))
             with (String c (String.concat " " (p :: q :: qs))).
           now rewrite IH.
  - apply list.Forall_forall. intros part. apply split_parts_space_free.
  - induction s as [|c s IH]; [reflexivity |].
    simpl. destruct (Ascii.eqb c " ").
    + simpl. now rewrite IH.
    + destruct (split " " s) as [|p ps]; [discriminate | exact IH].
Qed.

(** Every header whose second part is [tok] carries [tok]. *)
Lemma second_part_is_carried (h tok : string) :
  second (split " " h) = Some tok → carries h tok.
Proof.
  intros Hsecond.
  destruct (split_first h) as [[_ Hh] | (a & s' & Ha & -> & Hh)];
    rewrite Hh in Hsecond; [discriminate |].
  exists a. split; [exact Ha |].
  destruct (split_first s') as [[_ Hs'] | (b & s'' & _ & -> & Hs')];
    rewrite Hs' in Hsecond; injection Hsecond as <-.
  - left. reflexivity.
  - right. exists s''. reflexivity.
Qed.

(** X2.  The headers from which the gate takes the token [tok]: a first word
    without a space, a space, the token, itself without a space and not
    empty, and then either nothing or a space and anything. *)
Theorem header_token_grammar (h tok : string) :
  truthy (second (split " " h)) = Some tok
  ↔ tok ≠ ""
    ∧ ∃ scheme,
        space_free scheme = true
        ∧ space_free tok = true
        ∧ (h = scheme +:+ " " +:+ tok
           ∨ ∃ rest, h = scheme +:+ " " +:+ tok +:+ " " +:+ rest).
Proof.
  rewrite truthy_Some. split.
  - intros [Hsecond Hne]. split; [exact Hne |].
    destruct (split_first h) as [[_ Hh] | (a & s' & Ha & -> & Hh)].
    { rewrite Hh in Hsecond. discriminate. }
    rewrite Hh in Hsecond. exists a. split; [exact Ha |].
    destruct (split_first s') as [[Hfree Hs'] | (b & s'' & Hb & -> & Hs')];
      rewrite Hs' in Hsecond; injection Hsecond as <-.
    + split; [exact Hfree | left; reflexivity].
    + split; [exact Hb | right; exists s''; reflexivity].
  - intros (Hne & scheme & Hs & Ht & [-> | [rest ->]]); split; try exact Hne.
    + now rewrite split_scheme_token.
    + change (scheme +:+ " " +:+ tok +:+ " " +:+ rest)
        with (scheme +:+ String " " (tok +:+ String " " rest)).
      now rewrite !split_app_space.
Qed.

(** ** The gate at the edges of its input *)

Section Edges.

Context `{JwtPrimitive}.
Implicit Types (env : gmap string string) (now iat : Z) (w : world).

(** X4.  An Authorization header that is present and empty is treated as a
    missing one: 401, nothing on the console, [next] not run. *)
Theorem protect_empty_header env now w :
  headers_authorization (req w) = Some "" →
  (∀ next,
     protect env now next w
     = (tt, World (req w)
                  (Response 401 (sent (res w) ++ ["Not authorized"]))
                  (console w)))
  ∧ spy_calls (exec (protect env now spy) w) = spy_calls w.
Proof.
  intros Hempty.
  assert (Hrej : rejects env now w []).
  { apply protect_header_falsy. now rewrite Hempty. }
  split.
  - intros next. rewrite (Hrej next). unfold rejected. now rewrite app_nil_r.
  - unfold exec. rewrite (Hrej spy). apply spy_calls_rejected. auto.
Qed.

(** X3.  Nothing after the space, or a second space right after the first: the
    second part is empty and the request is rejected as malformed, whatever
    follows, a valid token included; verification is not reached. *)
Theorem protect_empty_second_part env now w (scheme rest : string) :
  space_free scheme = true →
  headers_authorization (req w) = Some (scheme +:+ " ")
  ∨ headers_authorization (req w) = Some (scheme +:+ " " +:+ " " +:+ rest) →
  failure env now w = Some MalformedCredential
  ∧ (∀ next,
       protect env now next w
       = (tt, World (req w)
                    (Response 401 (sent (res w) ++ ["Not authorized"]))
                    (console w ++ [LogString "here"])))
  ∧ spy_calls (exec (protect env now spy) w) = spy_calls w.
Proof.
  intros Hfree Hh.
  assert (∃ h, headers_authorization (req w) = Some h
               ∧ truthy (Some h) = Some h
               ∧ truthy (second (split " " h)) = None)
    as (h & Hhdr & Hb & Ht).
  { destruct Hh as [Hh | Hh]; eexists; (split; [exact Hh |]); split.
    - destruct scheme; reflexivity.
    - change (scheme +:+ " ") with (scheme +:+ String " " "").
      now rewrite split_app_space.
    - destruct scheme; reflexivity.
    - change (scheme +:+ " " +:+ " " +:+ rest)
        with (scheme +:+ String " " (String " " rest)).
      now rewrite split_app_space. }
  assert (Hb' : truthy (headers_authorization (req w)) = Some h)
    by (rewrite Hhdr; exact Hb).
  assert (Hrej : rejects env now w [LogString "here"])
    by exact (protect_token_falsy _ _ _ _ Hb' Ht).
  split; [| split].
  - unfold failure. now rewrite Hb', Ht.
  - intros next. rewrite (Hrej next). reflexivity.
  - unfold exec. rewrite (Hrej spy). apply spy_calls_rejected. auto.
Qed.

End Edges.

Lemma clean_second_part (h token : string) :
  truthy (second (split " " h)) = Some token → clean token = true.
Proof.
  intros [Hsecond Hne]%truthy_Some. unfold clean.
  apply andb_true_intro. split.
  - apply negb_true_iff. now apply String.eqb_neq.
  - apply (split_parts_space_free h).
    apply list_elem_of_lookup. exists 1%nat. exact Hsecond.
Qed.

(** X1.  The gate hands to [jwt.verify] clean tokens only, never the empty
    string and never a text with a space in it: two primitives that verify
    every clean token alike make the same gate. *)
Theorem protect_verifies_clean_tokens_only (P Q : JwtPrimitive)
    (env : gmap string string) (now : Z) :
  (∀ tok, clean tok = true →
          @jwt_verify P tok (env !! "JWT_SECRET") now
          = @jwt_verify Q tok (env !! "JWT_SECRET") now) →
  ∀ next w, @protect P env now next w = @protect Q env now next w.
Proof.
  intros Hagree next w.
  destruct (headers_authorization (req w)) as [h|] eqn:Hh.
  - rewrite (@protect_by_second_part P _ _ _ _ next Hh),
            (@protect_by_second_part Q _ _ _ _ next Hh).
    destruct (truthy (second (split " " h))) as [token|] eqn:Ht;
      [| reflexivity].
    now rewrite (Hagree token (clean_second_part _ _ Ht)).
  - assert (Hb : truthy (headers_authorization (req w)) = None)
      by now rewrite Hh.
    now rewrite (@protect_header_falsy P _ _ _ Hb next),
                (@protect_header_falsy Q _ _ _ Hb next).
Qed.

(** ** More on issued tokens *)

Section Issued.

Context `{JwtPrimitive}.
Implicit Types (env : gmap string string) (now iat : Z) (w : world).

(** X5.  Of the user record only the id and the username reach the token: the
    claim read back from an issued token has the issued-at stamp and, apart
    from [id] and [username], no other field. *)
Theorem issued_claim_has_no_other_field env now iat (usr : object)
    (tok : string) :
  IssuedAtRoundTrip →
  createJWT env iat usr = inr tok →
  ∃ claim,
    jwt_verify tok (env !! "JWT_SECRET") now = inr claim
    ∧ claim !! "iat" = Some (VNum iat)
    ∧ ∀ k, k ≠ "id" → k ≠ "username" → k ≠ "iat" → claim !! k = None.
Proof.
  intros Hround Hissue. unfold createJWT in Hissue.
  exists (<["iat" := VNum iat]> (identity_payload usr)).
  split; [| split].
  - apply Hround; [apply identity_payload_unregistered | exact Hissue].
  - apply lookup_insert_eq.
  - intros k Hid Hname Hiat.
    rewrite lookup_insert_ne by congruence.
    rewrite identity_payload_lookup.
    rewrite !decide_False by assumption. reflexivity.
Qed.

Lemma issued_token_is_forwarded env now iat (usr : object) (tok h : string) w :
  IssuedAtRoundTrip →
  TokensNonEmpty →
  createJWT env iat usr = inr tok →
  headers_authorization (req w) = Some h →
  second (split " " h) = Some tok →
  forwards env now w (<["iat" := VNum iat]> (identity_payload usr)).
Proof.
  intros Hround Hnonempty Hissue Hh Hsecond next.
  unfold createJWT in Hissue.
  rewrite (protect_by_second_part _ _ _ _ _ Hh), Hsecond.
  assert (Htr : truthy (Some tok) = Some tok).
  { apply truthy_Some. split; [reflexivity | eauto]. }
  rewrite Htr.
  rewrite (Hround _ _ _ _ now (identity_payload_unregistered usr) Hissue).
  reflexivity.
Qed.

(** X6.  [createJWT] checks nothing: for a user record without id and without
    username it still returns a token, and the gate forwards the request
    that carries it, with a claim that has the issued-at stamp and no
    identity in it. *)
Theorem createJWT_without_identity env iat (s : string) (usr : object) :
  SignsWithSecret →
  IssuedAtRoundTrip →
  TokensNonEmpty →
  env !! "JWT_SECRET" = Some s →
  s ≠ "" →
  usr !! "id" = None →
  usr !! "username" = None →
  ∃ tok,
    createJWT env iat usr = inr tok
    ∧ ∀ now w (h : string),
        headers_authorization (req w) = Some h →
        second (split " " h) = Some tok →
        forwards env now w {[ "iat" := VNum iat ]}
        ∧ user (req (forwarded {[ "iat" := VNum iat ]} w))
          = Some {[ "iat" := VNum iat ]}.
Proof.
  intros Hsigns Hround Hnonempty Hsecret Hs Hid Hname.
  assert (Hempty : identity_payload usr = ∅).
  { unfold identity_payload. now rewrite Hid, Hname. }
  destruct (Hsigns (identity_payload usr) s iat Hs
              (identity_payload_unregistered usr)) as [tok Htok].
  exists tok.
  assert (Hissue : createJWT env iat usr = inr tok).
  { unfold createJWT. now rewrite Hsecret. }
  split; [exact Hissue |].
  intros now w h Hh Hsecond.
  pose proof (issued_token_is_forwarded env now iat usr tok h w
                Hround Hnonempty Hissue Hh Hsecond) as Hfw.
  rewrite Hempty, insert_empty in Hfw. split; [exact Hfw | reflexivity].
Qed.

End Issued.

(** ** The logger in front of the gate *)

Section Logger.

Context `{JwtPrimitive}.
Implicit Types (env : gmap string string) (now : Z) (w : world).

(** The gate looks at the Authorization header only: two worlds with the
    same header end the same way. *)
Lemma protect_same_header env now w w' :
  headers_authorization (req w') = headers_authorization (req w) →
  (∃ payload, failure env now w = None
              ∧ forwards env now w payload ∧ forwards env now w' payload)
  ∨ (∃ c logs, failure env now w = Some c
               ∧ rejects env now w logs ∧ rejects env now w' logs
               ∧ (logs = [] ∨ logs = [LogString "here"]
                  ∨ ∃ e, logs = [LogError e])).
Proof.
  intros Hsame. unfold failure.
  destruct (truthy (headers_authorization (req w))) as [h|] eqn:Hb.
  - assert (Hb' : truthy (headers_authorization (req w')) = Some h)
      by now rewrite Hsame.
    destruct (truthy (second (split " " h))) as [token|] eqn:Ht.
    + destruct (jwt_verify token (env !! "JWT_SECRET") now)
        as [e|payload] eqn:Hv.
      * right. exists (VerificationFailed e), [LogError e].
        eauto 10 using protect_verify_throws.
      * left. exists payload. eauto using protect_verify_returns.
    + right. exists MalformedCredential, [LogString "here"].
      eauto 10 using protect_token_falsy.
  - assert (Hb' : truthy (headers_authorization (req w')) = None)
      by now rewrite Hsame.
    right. exists MissingHeader, []. eauto 10 using protect_header_falsy.
Qed.

Lemma spy_calls_logged (message : string) w :
  spy_calls (World (req w) (res w)
               (console w ++ [LogString ("Hello from " +:+ message)]))
  = spy_calls w.
Proof.
  unfold spy_calls. simpl.
  rewrite list.filter_app, length_app, filter_cons, filter_nil.
  rewrite decide_False by discriminate. simpl. lia.
Qed.

(** X7.  [customLogger] mounted before the gate, as in [src/server.ts]: the
    response, the request and the number of runs of [next] are those of the
    gate alone, and the console has the logger's line, once, before
    whatever the gate writes. *)
Theorem customLogger_before_protect (message : string) env now w :
  let logged := exec (customLogger message (protect env now (mret tt))) w in
  res logged = res (gate env now w)
  ∧ req logged = req (gate env now w)
  ∧ console logged
    = (console w ++ LogString ("Hello from " +:+ message)
         :: drop (List.length (console w)) (console (gate env now w)))%list
  ∧ spy_calls (exec (customLogger message (protect env now spy)) w)
    = spy_calls (exec (protect env now spy) w).
Proof.
  set (w' := World (req w) (res w)
               (console w ++ [LogString ("Hello from " +:+ message)])).
  assert (Hlog : ∀ next, customLogger message (protect env now next) w
                         = protect env now next w') by reflexivity.
  assert (Hcalls : spy_calls w' = spy_calls w) by apply spy_calls_logged.
  unfold gate, exec. cbv zeta. rewrite !Hlog.
  destruct (protect_same_header env now w w' eq_refl)
    as [(payload & _ & Hfw & Hfw') | (c & logs & _ & Hrej & Hrej' & Hlogs)].
  - rewrite !Hfw, !Hfw'. repeat split.
    + simpl. rewrite drop_app_length, <- app_assoc. reflexivity.
    + change (spy_calls (exec spy (forwarded payload w'))
              = spy_calls (exec spy (forwarded payload w))).
      now rewrite !spy_calls_forwarded, Hcalls.
  - rewrite !Hrej, !Hrej'. repeat split.
    + simpl. rewrite drop_app_length, <- app_assoc. reflexivity.
    + cbn [snd]. now rewrite !spy_calls_rejected, Hcalls.
Qed.

End Logger.

(** ** The router behind the gate *)

Section Routes.

Context `{JwtPrimitive}.
Variable JSON_stringify : object → string.
Implicit Types (env : gmap string string) (now : Z) (w : world).

(** X8.  A request that Express dispatches to a route of the router, mounted
    behind the gate.  With a token that fails, the answer is the 401 of the
    gate.  With a token that verifies, [GET /product] answers with the
    product message and leaves the status alone, and every other route
    answers nothing at all: the request is left hanging. *)
Theorem router_behind_gate env now w (r : route) :
  r ∈ router JSON_stringify →
  let after := exec (api env now (route_handler r)) w in
  (∀ c, failure env now w = Some c →
        res after = Response 401 (sent (res w) ++ ["Not authorized"]))
  ∧ (failure env now w = None →
     route_verb r = GET → route_path r = "/product" →
     res after
     = Response (statusCode (res w))
         (sent (res w)
          ++ [JSON_stringify {[ "message" := VStr "product" ]}]))
  ∧ (failure env now w = None →
     route_verb r ≠ GET ∨ route_path r ≠ "/product" →
     res after = res w).
Proof.
  intros Hin after. subst after. unfold api, exec.
  destruct (protect_cases env now w)
    as [(payload & Hnone & Hfw) | (c & logs & Hsome & Hrej & _)].
  - rewrite Hfw. split; [intros c Hc; congruence |].
    unfold router in Hin.
    repeat (apply elem_of_cons in Hin as [-> | Hin]);
      try (now apply elem_of_nil in Hin);
      simpl; (split; [intros _ Hverb Hpath | intros _ [Hverb | Hpath]]);
      try discriminate; try congruence; try reflexivity.
  - split; [intros c' _; now rewrite (Hrej (route_handler r)) |].
    split; intros; congruence.
Qed.

End Routes.

(** ** The first program of README.MD *)

Section HardMode.

Variable JSON_stringify : object → string.

(** X9.  The listener answers every request, and once: the head, then the
    body, then the end, nothing after it.  The content type is JSON in both
    cases; the status is 200 exactly for [GET] on the path "/", with the
    hello message, and 404 with the nope message for anything else, a query
    string behind the slash or another method included. *)
Theorem server_answers_every_request (req : incoming) :
  let out := server JSON_stringify req in
  complete_response out = true
  ∧ content_type_of out = Some "application/json"
  ∧ (status_of out = Some 200 ↔ url req = "/" ∧ method req = "GET")
  ∧ (status_of out = Some 200
       ∧ body_of out = JSON_stringify {[ "message" := VStr "hello" ]}
     ∨ status_of out = Some 404
       ∧ body_of out = JSON_stringify {[ "message" := VStr "nope" ]}).
Proof.
  unfold server.
  destruct (String.eqb_spec (url req) "/") as [Hurl | Hurl];
    destruct (String.eqb_spec (method req) "GET") as [Hmethod | Hmethod];
    simpl; rewrite ?str_app_nil_r;
    repeat split; auto; try discriminate; try (intros [? ?]; contradiction).
Qed.

End HardMode.


(** * The claims at concrete requests *)

Section Concrete.

#[local] Existing Instance reference_jwt.

(** ** Where the specification and the code part *)

(** C1 as stated fails: the second whitespace-separated part of this header
    is a token [createJWT] issued under the configured secret, it verifies,
    and yet the gate answers 401 without running [next], because a tab does
    not separate the parts. *)
Lemma tab_separated_token_is_rejected :
  createJWT sample_env 1700000000 sample_user = inr sample_token
  ∧ jwt_verify sample_token (sample_env !! "JWT_SECRET") 1700000005
    = inr (<["iat" := VNum 1700000000]> sample_user)
  ∧ spec_token tab_header = Some sample_token
  ∧ String.words tab_header = ["Bearer"; sample_token]
  ∧ gate sample_env 1700000005 (sample_world (Some tab_header))
    = World (Request (Some tab_header) None)
            (Response 401 ["Not authorized"])
            [LogString "here"]
  ∧ spy_calls (exec (protect sample_env 1700000005 spy)
                    (sample_world (Some tab_header))) = 0%nat.
Proof. vm_compute. repeat split. Qed.

(** C3 as stated fails: the part the gate takes is not the second
    whitespace-separated one.  Split at whitespace this header has the token
    as its second part; split as the gate splits it, it has one part only,
    and the gate turns the request away before any verification. *)
Lemma whitespace_is_not_the_separator :
  second (spec_split_whitespace tab_header) = Some sample_token
  ∧ second (split " " tab_header) = None
  ∧ second (spec_split_whitespace tab_header) ≠ second (split " " tab_header)
  ∧ failure sample_env 1700000005 (sample_world (Some tab_header))
    = Some MalformedCredential
  ∧ failure sample_env 1700000005 (sample_world (Some bearer_header)) = None.
Proof. vm_compute. repeat split. discriminate. Qed.

(** C5 as stated fails: what verification returns for the token of the
    sample identity is the identity extended with [iat], which is not the
    identity. *)
Lemma decoded_claim_is_not_the_identity :
  createJWT sample_env 1700000000 sample_user = inr sample_token
  ∧ jwt_verify sample_token (sample_env !! "JWT_SECRET") 1700000000
    = inr (<["iat" := VNum 1700000000]> sample_user)
  ∧ jwt_verify sample_token (sample_env !! "JWT_SECRET") 1700000000
    ≠ inr sample_user.
Proof.
  split; [vm_compute; reflexivity |].
  assert (Hv : jwt_verify sample_token (sample_env !! "JWT_SECRET") 1700000000
               = inr (<["iat" := VNum 1700000000]> sample_user))
    by (vm_compute; reflexivity).
  split; [exact Hv |].
  rewrite Hv. intros Heq.
  apply (f_equal (λ r : js_error + object,
                    match r with inr m => m !! "iat" | inl _ => None end))
    in Heq.
  vm_compute in Heq. discriminate.
Qed.

(** C6 as stated fails: the same identity under the same secret gets another
    token one second later. *)
Lemma one_second_later_another_token :
  createJWT sample_env 1700000000 sample_user = inr sample_token
  ∧ createJWT sample_env 1700000001 sample_user = inr later_token
  ∧ sample_token ≠ later_token.
Proof.
  split; [vm_compute; reflexivity | split; [vm_compute; reflexivity |]].
  apply (createJWT_stamped (H := reference_jwt)
           sample_env 1700000000 1700000001 sample_user).
  - exact ref_issued_at_round_trip.
  - discriminate.
  - vm_compute; reflexivity.
  - vm_compute; reflexivity.
Qed.

(** C9 as stated fails: with no secret anywhere the script brings the
    server up, and the request that then arrives is answered, with 401, by
    the gate. *)
Lemma server_starts_without_secret :
  dotenv_config ∅ ∅ !! "JWT_SECRET" = None
  ∧ serves_traffic (index_ts ∅ ∅) = true
  ∧ gate (dotenv_config ∅ ∅) 1700000005 (sample_world (Some bearer_header))
    = World (Request (Some bearer_header) None)
            (Response 401 ["Not authorized"])
            [LogError (JsError "JsonWebTokenError"
                               "secret or public key must be provided")].
Proof. vm_compute. repeat split. Qed.

(** ** The theorems at the sample requests *)

Lemma sample_token_issued :
  createJWT sample_env 1700000000 sample_user = inr sample_token.
Proof. vm_compute. reflexivity. Qed.

Lemma sample_token_verifies :
  jwt_verify sample_token (sample_env !! "JWT_SECRET") 1700000005
  = inr (<["iat" := VNum 1700000000]> (identity_payload sample_user)).
Proof. vm_compute. reflexivity. Qed.

Lemma sample_token_tampered : mutation sample_token tampered_token.
Proof.
  exists "", "J"%char, "K"%char, (str_tail sample_token).
  split; [discriminate | split; vm_compute; reflexivity].
Qed.

Lemma protect_forwards_issued_token_witness :
  createJWT sample_env 1700000000 sample_user = inr sample_token
  ∧ headers_authorization (req (sample_world (Some bearer_header)))
    = Some bearer_header
  ∧ second (split " " bearer_header) = Some sample_token
  ∧ forwards sample_env 1700000005 (sample_world (Some bearer_header))
      (<["iat" := VNum 1700000000]> (identity_payload sample_user)).
Proof.
  assert (Hsecond : second (split " " bearer_header) = Some sample_token)
    by (vm_compute; reflexivity).
  split; [exact sample_token_issued | split; [reflexivity | split]].
  - exact Hsecond.
  - exact (proj1 (protect_forwards_issued_token
                    sample_env 1700000005 1700000000 sample_user
                    sample_token bearer_header
                    (sample_world (Some bearer_header))
                    ref_issued_at_round_trip ref_tokens_non_empty
                    sample_token_issued eq_refl Hsecond)).
Defined.

Lemma protect_missing_header_witness :
  headers_authorization (req (sample_world None)) = None
  ∧ protect sample_env 1700000005 spy (sample_world None)
    = (tt, World (Request None None) (Response 401 ["Not authorized"]) []).
Proof.
  split; [reflexivity |].
  exact (proj1 (protect_missing_header sample_env 1700000005
                  (sample_world None) eq_refl) spy).
Defined.

Lemma protect_parses_second_space_part_witness :
  headers_authorization (req (sample_world (Some "Bearer"))) = Some "Bearer"
  ∧ truthy (second (split " " "Bearer")) = None
  ∧ res (gate sample_env 1700000005 (sample_world (Some "Bearer")))
    = Response 401 ["Not authorized"].
Proof.
  split; [reflexivity | split; [reflexivity |]].
  exact (proj1 (proj2 (proj1 (protect_parses_second_space_part
                                sample_env 1700000005
                                (sample_world (Some "Bearer")) "Bearer"
                                eq_refl) eq_refl)) (mret tt)).
Defined.

Lemma sample_token_spaced : mutation sample_token spaced_token.
Proof.
  exists "J", "0"%char, " "%char, (str_tail (str_tail sample_token)).
  split; [discriminate | split; vm_compute; reflexivity].
Qed.

Lemma bearer_carries (tok : string) : carries ("Bearer " +:+ tok) tok.
Proof. exists "Bearer". split; [reflexivity | left; reflexivity]. Qed.

Lemma protect_rejects_foreign_token_witness :
  (jwt_sign (identity_payload sample_user) (Some "s3cr3t") 1700000000
   = inr sample_token
   ∧ other_env !! "JWT_SECRET" ≠ Some "s3cr3t"
   ∧ carries bearer_header sample_token
   ∧ res (gate other_env 1700000005 (sample_world (Some bearer_header)))
     = Response 401 ["Not authorized"])
  ∧ (jwt_sign (identity_payload sample_user) (sample_env !! "JWT_SECRET")
       1700000000 = inr sample_token
     ∧ mutation sample_token tampered_token
     ∧ carries ("Bearer " +:+ tampered_token) tampered_token
     ∧ res (gate sample_env 1700000005
              (sample_world (Some ("Bearer " +:+ tampered_token))))
       = Response 401 ["Not authorized"])
  ∧ (mutation sample_token spaced_token
     ∧ carries ("Bearer " +:+ spaced_token) spaced_token
     ∧ res (gate sample_env 1700000005
              (sample_world (Some ("Bearer " +:+ spaced_token))))
       = Response 401 ["Not authorized"]).
Proof.
  assert (Hsigned : jwt_sign (identity_payload sample_user) (Some "s3cr3t")
                      1700000000 = inr sample_token)
    by (vm_compute; reflexivity).
  assert (Hother : other_env !! "JWT_SECRET" ≠ Some "s3cr3t")
    by (vm_compute; discriminate).
  split; [| split].
  - split; [exact Hsigned | split; [exact Hother | split]].
    + apply bearer_carries.
    + refine (proj1 (proj2 (proj2 (protect_rejects_foreign_token
                other_env 1700000005 sample_token bearer_header
                (sample_world (Some bearer_header))
                ref_only_signing_key ref_tamper_evident
                ref_tokens_space_free ref_truncation_evident
                _ eq_refl (bearer_carries _))))
                (mret tt)).
      left. exists (identity_payload sample_user), "s3cr3t", 1700000000.
      split; [exact Hsigned | exact Hother].
  - split; [exact Hsigned | split; [exact sample_token_tampered | split]].
    + apply bearer_carries.
    + refine (proj1 (proj2 (proj2 (protect_rejects_foreign_token
                sample_env 1700000005 tampered_token
                ("Bearer " +:+ tampered_token)
                (sample_world (Some ("Bearer " +:+ tampered_token)))
                ref_only_signing_key ref_tamper_evident
                ref_tokens_space_free ref_truncation_evident
                _ eq_refl (bearer_carries _))))
                (mret tt)).
      right. exists (identity_payload sample_user), 1700000000, sample_token.
      split; [exact Hsigned | exact sample_token_tampered].
  - split; [exact sample_token_spaced | split].
    + apply bearer_carries.
    + refine (proj1 (proj2 (proj2 (protect_rejects_foreign_token
                sample_env 1700000005 spaced_token
                ("Bearer " +:+ spaced_token)
                (sample_world (Some ("Bearer " +:+ spaced_token)))
                ref_only_signing_key ref_tamper_evident
                ref_tokens_space_free ref_truncation_evident
                _ eq_refl (bearer_carries _))))
                (mret tt)).
      right. exists (identity_payload sample_user), 1700000000, sample_token.
      split; [exact Hsigned | exact sample_token_spaced].
Defined.

Lemma verify_createJWT_adds_issued_at_witness :
  sample_env !! "JWT_SECRET" = Some "s3cr3t"
  ∧ "s3cr3t" ≠ ""
  ∧ ∃ tok,
      createJWT sample_env 1700000000 sample_user = inr tok
      ∧ jwt_verify tok (sample_env !! "JWT_SECRET") 1700000005
        = inr (<["iat" := VNum 1700000000]> sample_user)
      ∧ <["iat" := VNum 1700000000]> sample_user ≠ sample_user
      ∧ delete "iat" (<["iat" := VNum 1700000000]> sample_user) = sample_user.
Proof.
  assert (Hsecret : sample_env !! "JWT_SECRET" = Some "s3cr3t")
    by (vm_compute; reflexivity).
  assert (Hne : "s3cr3t" ≠ "") by discriminate.
  split; [exact Hsecret | split; [exact Hne |]].
  exact (verify_createJWT_adds_issued_at sample_env 1700000005 1700000000
           "s3cr3t" (VStr "u-1") (VStr "ada")
           ref_signs_with_secret ref_issued_at_round_trip Hsecret Hne).
Defined.

Lemma createJWT_deterministic_witness :
  sample_env !! "JWT_SECRET"
  = (<["PORT" := "3001"]> sample_env) !! "JWT_SECRET"
  ∧ sample_user !! "id" = (<["password" := VStr "hunter2"]> sample_user) !! "id"
  ∧ sample_user !! "username"
    = (<["password" := VStr "hunter2"]> sample_user) !! "username"
  ∧ createJWT sample_env 1700000000 sample_user
    = createJWT (<["PORT" := "3001"]> sample_env) 1700000000
        (<["password" := VStr "hunter2"]> sample_user).
Proof.
  assert (H1 : sample_env !! "JWT_SECRET"
               = (<["PORT" := "3001"]> sample_env) !! "JWT_SECRET")
    by (vm_compute; reflexivity).
  assert (H2 : sample_user !! "id"
               = (<["password" := VStr "hunter2"]> sample_user) !! "id")
    by (vm_compute; reflexivity).
  assert (H3 : sample_user !! "username"
               = (<["password" := VStr "hunter2"]> sample_user) !! "username")
    by (vm_compute; reflexivity).
  split; [exact H1 | split; [exact H2 | split; [exact H3 |]]].
  exact (proj1 (createJWT_deterministic _ _ 1700000000 _ _ H1 H2 H3)).
Defined.

Lemma uniform_rejection_witness :
  failure sample_env 1700000005 (sample_world None) = Some MissingHeader
  ∧ failure sample_env 1700003600
      (sample_world (Some ("Bearer " +:+ expiring_token)))
    = Some (VerificationFailed (JsError "TokenExpiredError" "jwt expired"))
  ∧ res (gate sample_env 1700000005 (sample_world None))
    = res (gate sample_env 1700003600
             (sample_world (Some ("Bearer " +:+ expiring_token)))).
Proof.
  assert (H1 : failure sample_env 1700000005 (sample_world None)
               = Some MissingHeader)
    by (vm_compute; reflexivity).
  assert (H2 : failure sample_env 1700003600
                 (sample_world (Some ("Bearer " +:+ expiring_token)))
               = Some (VerificationFailed
                         (JsError "TokenExpiredError" "jwt expired")))
    by (vm_compute; reflexivity).
  split; [exact H1 | split; [exact H2 |]].
  exact (proj1 (proj2 (uniform_rejection _ _ _ _ _ _ _ _ H1 H2))
           eq_refl (mret tt) (mret tt)).
Defined.

Lemma missing_secret_is_handled_per_request_witness :
  truthy (dotenv_config ∅ ∅ !! "JWT_SECRET") = None
  ∧ serves_traffic (index_ts ∅ ∅) = true
  ∧ ∃ e, createJWT (dotenv_config ∅ ∅) 1700000000 sample_user = inl e.
Proof.
  assert (Hmissing : truthy (dotenv_config ∅ ∅ !! "JWT_SECRET") = None)
    by (vm_compute; reflexivity).
  split; [exact Hmissing |].
  destruct (missing_secret_is_handled_per_request ∅ ∅
              ref_sign_needs_secret Hmissing)
    as (Hserves & _ & Hissue & _).
  split; [exact Hserves |].
  destruct (Hissue 1700000000 sample_user) as (e & He & _).
  exists e. exact He.
Defined.

Lemma scheme_word_unchecked_witness :
  second (split " " bearer_header) = second (split " " basic_header)
  ∧ res (gate sample_env 1700000005
           (with_authorization (Some bearer_header) (sample_world None)))
    = res (gate sample_env 1700000005
             (with_authorization (Some basic_header) (sample_world None)))
  ∧ space_free "Basic" = true
  ∧ space_free sample_token = true
  ∧ sample_token ≠ ""
  ∧ forwards sample_env 1700000005
      (with_authorization (Some ("Basic" +:+ " " +:+ sample_token))
         (sample_world None))
      (<["iat" := VNum 1700000000]> (identity_payload sample_user)).
Proof.
  assert (Hsame : second (split " " bearer_header)
                  = second (split " " basic_header))
    by (vm_compute; reflexivity).
  assert (Hfree : space_free sample_token = true) by (vm_compute; reflexivity).
  assert (Hne : sample_token ≠ "") by (vm_compute; discriminate).
  pose proof (scheme_word_unchecked sample_env 1700000005 (sample_world None))
    as [Hsecond Hscheme].
  split; [exact Hsame | split; [| split; [reflexivity | split; [exact Hfree |
    split; [exact Hne |]]]]].
  - exact (proj1 (Hsecond bearer_header basic_header Hsame)).
  - exact (Hscheme "Basic" sample_token _ eq_refl Hfree Hne
             sample_token_verifies).
Defined.

(** ** The further theorems at sample requests *)

Lemma protect_empty_header_witness :
  headers_authorization (req (sample_world (Some ""))) = Some ""
  ∧ protect sample_env 1700000005 spy (sample_world (Some ""))
    = (tt, World (Request (Some "") None)
                 (Response 401 ["Not authorized"]) []).
Proof.
  split; [reflexivity |].
  exact (proj1 (protect_empty_header sample_env 1700000005
                  (sample_world (Some "")) eq_refl) spy).
Defined.

Lemma protect_empty_second_part_witness :
  space_free "Bearer" = true
  ∧ headers_authorization (req (sample_world (Some wide_header)))
    = Some ("Bearer" +:+ " " +:+ " " +:+ sample_token)
  ∧ failure sample_env 1700000005 (sample_world (Some bearer_header)) = None
  ∧ failure sample_env 1700000005 (sample_world (Some wide_header))
    = Some MalformedCredential.
Proof.
  assert (Hh : headers_authorization (req (sample_world (Some wide_header)))
               = Some ("Bearer" +:+ " " +:+ " " +:+ sample_token))
    by reflexivity.
  split; [reflexivity | split; [exact Hh | split]].
  - vm_compute. reflexivity.
  - exact (proj1 (protect_empty_second_part sample_env 1700000005
                    (sample_world (Some wide_header)) "Bearer" sample_token
                    eq_refl (or_intror Hh))).
Defined.

Lemma lenient_agrees_on_clean_tokens (key : option string) (now : Z)
    (tok : string) :
  clean tok = true →
  @jwt_verify reference_jwt tok key now = @jwt_verify lenient_jwt tok key now.
Proof. intros Hclean. simpl. now rewrite Hclean. Qed.

Lemma protect_verifies_clean_tokens_only_witness :
  (∀ tok, clean tok = true →
          @jwt_verify reference_jwt tok (sample_env !! "JWT_SECRET") 1700000005
          = @jwt_verify lenient_jwt tok (sample_env !! "JWT_SECRET") 1700000005)
  ∧ @jwt_verify reference_jwt "" (sample_env !! "JWT_SECRET") 1700000005
    ≠ @jwt_verify lenient_jwt "" (sample_env !! "JWT_SECRET") 1700000005
  ∧ @protect reference_jwt sample_env 1700000005 spy
      (sample_world (Some "Bearer "))
    = @protect lenient_jwt sample_env 1700000005 spy
        (sample_world (Some "Bearer ")).
Proof.
  split; [intros tok; apply lenient_agrees_on_clean_tokens | split].
  - vm_compute. discriminate.
  - exact (protect_verifies_clean_tokens_only reference_jwt lenient_jwt
             sample_env 1700000005
             (lenient_agrees_on_clean_tokens _ _)
             spy (sample_world (Some "Bearer "))).
Defined.

Lemma issued_claim_has_no_other_field_witness :
  createJWT sample_env 1700000000 full_user = inr sample_token
  ∧ full_user !! "password" = Some (VStr "hunter2")
  ∧ ∃ claim,
      jwt_verify sample_token (sample_env !! "JWT_SECRET") 1700000005
      = inr claim
      ∧ claim !! "password" = None.
Proof.
  assert (Hissue : createJWT sample_env 1700000000 full_user
                   = inr sample_token)
    by (vm_compute; reflexivity).
  split; [exact Hissue | split; [vm_compute; reflexivity |]].
  destruct (issued_claim_has_no_other_field sample_env 1700000005 1700000000
              full_user sample_token ref_issued_at_round_trip Hissue)
    as (claim & Hverify & _ & Hother).
  exists claim. split; [exact Hverify |].
  apply Hother; discriminate.
Defined.

Lemma createJWT_without_identity_witness :
  sample_env !! "JWT_SECRET" = Some "s3cr3t"
  ∧ "s3cr3t" ≠ ""
  ∧ (∅ : object) !! "id" = None
  ∧ (∅ : object) !! "username" = None
  ∧ createJWT sample_env 1700000000 ∅ = inr anonymous_token
  ∧ forwards sample_env 1700000005
      (sample_world (Some ("Bearer " +:+ anonymous_token)))
      {[ "iat" := VNum 1700000000 ]}.
Proof.
  assert (Hsecret : sample_env !! "JWT_SECRET" = Some "s3cr3t")
    by (vm_compute; reflexivity).
  assert (Hne : "s3cr3t" ≠ "") by discriminate.
  assert (Hanon : createJWT sample_env 1700000000 ∅ = inr anonymous_token)
    by (vm_compute; reflexivity).
  assert (Hsecond : second (split " " ("Bearer " +:+ anonymous_token))
                    = Some anonymous_token)
    by (vm_compute; reflexivity).
  split; [exact Hsecret | split; [exact Hne |]].
  split; [apply lookup_empty | split; [apply lookup_empty |]].
  split; [exact Hanon |].
  destruct (createJWT_without_identity sample_env 1700000000 "s3cr3t" ∅
              ref_signs_with_secret ref_issued_at_round_trip
              ref_tokens_non_empty Hsecret Hne
              (lookup_empty _) (lookup_empty _))
    as (tok & Hissue & Hfw).
  rewrite Hanon in Hissue. injection Hissue as <-.
  exact (proj1 (Hfw 1700000005
                  (sample_world (Some ("Bearer " +:+ anonymous_token)))
                  _ eq_refl Hsecond)).
Defined.

Lemma router_behind_gate_witness :
  Route GET "/update" placeholder ∈ router sample_stringify
  ∧ failure sample_env 1700000005 (sample_world (Some bearer_header)) = None
  ∧ res (exec (api sample_env 1700000005
                 (route_handler (Route GET "/update" placeholder)))
           (sample_world (Some bearer_header)))
    = res (sample_world (Some bearer_header)).
Proof.
  assert (Hin : Route GET "/update" placeholder ∈ router sample_stringify)
    by (unfold router; repeat constructor).
  assert (Hnone : failure sample_env 1700000005
                    (sample_world (Some bearer_header)) = None)
    by (vm_compute; reflexivity).
  split; [exact Hin | split; [exact Hnone |]].
  pose proof (router_behind_gate sample_stringify sample_env 1700000005
                (sample_world (Some bearer_header))
                (Route GET "/update" placeholder) Hin) as (_ & _ & Hhang).
  apply (Hhang Hnone). right. discriminate.
Defined.

End Concrete.
